(** * Twine canvas engine: stores, gestures and paste handling

    Shallow embedding of the zustand stores [src/src/stores/blocksStore.ts]
    and [src/src/stores/connectionsStore.ts], of the per-block interaction
    handlers of the canvas component (the block re-render effect of the
    second [CanvasApp] version in [part_006]) and of the store-backed paste
    handler of [part_005].

    World coordinates and sizes are JavaScript numbers; they are modelled as
    rationals [Q] (exact arithmetic, no rounding).  Timestamps
    ([Date.now()]) are integer milliseconds, modelled as [Z]. *)

From Stdlib Require Import List String Bool NArith ZArith QArith Qminmax Qabs Lia Lqa.
Import ListNotations.
Local Open Scope string_scope.
Local Open Scope list_scope.

(** ** Data model ([src/unnamed/part_008], [types/canvas.ts]) *)

Record Point := mkPoint { px : Q; py : Q }.
Record Size := mkSize { width : Q; height : Q }.

Inductive BlockType := TText | TImage | TDrawing | TVoice.

(** [content: any]: the two shapes built by the helpers. *)
Inductive Content :=
| TextContent (text : string) (fontSize : Q) (color : string)
| ImageContent (url : string) (originalSize : Size).

Record Block := mkBlock {
  id : string;
  type : BlockType;
  content : Content;
  position : Point;
  size : Size;
  selected : bool;
  locked : bool;
  visible : bool
}.

Record Connection := mkConnection {
  cid : string;
  cfrom : string;
  cto : string
}.

(** ** The blocks store ([blocksStore.ts]) *)

(** A JavaScript [Set<string>] as the list of its elements in insertion
    order; [has], [add] and [delete] as the Set methods. *)
Definition IdSet := list string.
Definition set_has (s : IdSet) (x : string) : bool := existsb (String.eqb x) s.
Definition set_add (s : IdSet) (x : string) : IdSet :=
  if set_has s x then s else s ++ [x].
Definition set_delete (s : IdSet) (x : string) : IdSet :=
  filter (fun y => negb (String.eqb y x)) s.

Record BlocksState := mkBlocksState {
  blocks : list Block;
  selectedBlockIds : IdSet
}.

Definition with_position (b : Block) (p : Point) : Block :=
  mkBlock (id b) (type b) (content b) p (size b) (selected b) (locked b) (visible b).
Definition with_size (b : Block) (s : Size) : Block :=
  mkBlock (id b) (type b) (content b) (position b) s (selected b) (locked b) (visible b).
Definition with_selected (b : Block) (v : bool) : Block :=
  mkBlock (id b) (type b) (content b) (position b) (size b) v (locked b) (visible b).
Definition with_content (b : Block) (c : Content) : Block :=
  mkBlock (id b) (type b) c (position b) (size b) (selected b) (locked b) (visible b).

(** [addBlock: (block) => set(state => ({ blocks: [...state.blocks, block] }))] *)
Definition addBlock (blk : Block) (st : BlocksState) : BlocksState :=
  mkBlocksState (blocks st ++ [blk]) (selectedBlockIds st).

(** [updateBlock], restricted to the updates the canvas performs: a new
    [content] object. *)
Definition updateBlockContent (bid : string) (c : Content) (st : BlocksState)
  : BlocksState :=
  mkBlocksState
    (map (fun b => if String.eqb (id b) bid then with_content b c else b) (blocks st))
    (selectedBlockIds st).

(** [deleteBlock]: filters the block list and the selection set. *)
Definition deleteBlock (bid : string) (st : BlocksState) : BlocksState :=
  mkBlocksState
    (filter (fun b => negb (String.eqb (id b) bid)) (blocks st))
    (filter (fun x => negb (String.eqb x bid)) (selectedBlockIds st)).

(** [selectBlock(id, multi = false)] *)
Definition selectBlock (bid : string) (multi : bool) (st : BlocksState)
  : BlocksState :=
  let start := if multi then selectedBlockIds st else [] in
  let newSelected :=
    if multi && set_has start bid then set_delete start bid
    else set_add start bid in
  mkBlocksState
    (map (fun b => with_selected b (set_has newSelected (id b))) (blocks st))
    newSelected.

Definition deselectAll (st : BlocksState) : BlocksState :=
  mkBlocksState (map (fun b => with_selected b false) (blocks st)) [].

Definition moveBlock (bid : string) (x y : Q) (st : BlocksState) : BlocksState :=
  mkBlocksState
    (map (fun b => if String.eqb (id b) bid then with_position b (mkPoint x y) else b)
       (blocks st))
    (selectedBlockIds st).

(** [Math.max(50, width)] *)
Definition resizeBlock (bid : string) (w h : Q) (st : BlocksState) : BlocksState :=
  mkBlocksState
    (map (fun b => if String.eqb (id b) bid
                   then with_size b (mkSize (Qmax 50 w) (Qmax 50 h)) else b)
       (blocks st))
    (selectedBlockIds st).

(** [createTextBlock(x, y, text = 'New Note')]; the id
    [block-${Date.now()}-${random}] is passed in as [bid]. *)
Definition createTextBlock (bid : string) (x y : Q) (text : string) : Block :=
  mkBlock bid TText
    (TextContent (if String.eqb text ""%string then "New Note"%string else text) 16 "#ffffff"%string)
    (mkPoint x y) (mkSize (Qmax 200 100) (Qmax 100 50)) false false true.

(** [createImageBlock(x, y, url, width = 300, height = 200)] *)
Definition createImageBlock (bid : string) (x y : Q) (url : string) (w h : Q) : Block :=
  let safeWidth := Qmax w 50 in
  let safeHeight := Qmax h 50 in
  mkBlock bid TImage (ImageContent url (mkSize safeWidth safeHeight))
    (mkPoint x y) (mkSize safeWidth safeHeight) false false true.

(** ** The connections store ([connectionsStore.ts]) *)

Record ConnectionsState := mkConnectionsState {
  connections : list Connection;
  connectionMode : bool;
  connectingFrom : option string
}.

Definition connects (c : Connection) (from to : string) : bool :=
  (String.eqb (cfrom c) from && String.eqb (cto c) to)
  || (String.eqb (cfrom c) to && String.eqb (cto c) from).

(** [addConnection(from, to)]; the fresh id [conn-${Date.now()}-...] is
    passed in as [fresh]. *)
Definition addConnection (fresh from to : string) (cs : ConnectionsState)
  : ConnectionsState :=
  if String.eqb from to then cs
  else if existsb (fun c => connects c from to) (connections cs) then cs
  else mkConnectionsState (connections cs ++ [mkConnection fresh from to])
         false None.

Definition setConnectingFrom (v : option string) (cs : ConnectionsState)
  : ConnectionsState :=
  mkConnectionsState (connections cs) (connectionMode cs) v.

Definition deleteConnection (x : string) (cs : ConnectionsState) : ConnectionsState :=
  mkConnectionsState (filter (fun c => negb (String.eqb (cid c) x)) (connections cs))
    (connectionMode cs) (connectingFrom cs).

(** Both stores together. *)
Record AppState := mkAppState { bstore : BlocksState; cstore : ConnectionsState }.

(** The store action [deleteBlock] seen on the whole application: it only
    touches the blocks store. *)
Definition app_deleteBlock (bid : string) (a : AppState) : AppState :=
  mkAppState (deleteBlock bid (bstore a)) (cstore a).

(** The connection render effect: [blocks.find] both endpoints and skip
    ([return]) the connection when either is missing. *)
Definition find_block (bs : list Block) (x : string) : option Block :=
  find (fun b => String.eqb (id b) x) bs.

Definition drawn_connections (bs : list Block) (cs : list Connection)
  : list Connection :=
  filter (fun c => match find_block bs (cfrom c), find_block bs (cto c) with
                   | Some _, Some _ => true
                   | _, _ => false
                   end) cs.

(** ** Per-block interaction handlers ([part_006], block re-render effect)

    The effect runs [blocks.forEach(block => ...)] and, for each block,
    allocates the closure variables below; [block] is the snapshot of the
    block taken when the effect ran.  The effect has no cleanup function:
    the viewport listeners of a closure stay attached until that closure's
    own [handlePointerUp] / [handleResizeEnd] detaches them.  A closure of a
    later run starts with [isDragging = isResizing = false], so the closure
    that received the pointer-down is the one that drives the gesture; the
    model follows that closure together with the blocks store. *)

Inductive Corner := BR | TL | TR | BL.

Record Closure := mkClosure {
  cblock : Block;            (* [block], the snapshot *)
  isDragging : bool;
  isResizing : bool;
  dragging : bool;
  dragStart : Point;
  resizeStart : Size * Point; (* [{ width, height, x, y }] *)
  corner : Corner;           (* [handleType] of the active resize *)
  lastClickTime : Z;
  editing : bool;            (* [(blockContainer as any).editing] *)
  moveAttached : bool;       (* [handlePointerMove] on the viewport *)
  upAttached : bool;         (* [handlePointerUp] on the viewport *)
  resizeAttached : bool      (* [handleResizeMove] / [handleResizeEnd] *)
}.

(** The closure as allocated by one run of the effect. *)
Definition init_closure (b : Block) : Closure :=
  mkClosure b false false false (mkPoint 0 0)
    (size b, mkPoint 0 0) BR 0 false true true false.

Record Gesture := mkGesture { cl : Closure; store : BlocksState }.

Definition set_cl (g : Gesture) (c : Closure) : Gesture := mkGesture c (store g).

Definition doubleClickSpeed : Z := 300.

(** [startEditingSystemBlock], its effect on the closure only (the edit
    session itself is modelled below). *)
Definition startEditing (c : Closure) : Closure :=
  if editing c then c
  else mkClosure (cblock c) (isDragging c) (isResizing c) (dragging c) (dragStart c)
         (resizeStart c) (corner c) (lastClickTime c) true
         (moveAttached c) (upAttached c) (resizeAttached c).

(** [blockContainer.on('pointerdown', ...)] without Shift: select, record
    the drag anchor [dragStart = world - block.position]. *)
Definition block_pointerdown_plain (multi : bool) (w : Point) (g : Gesture) : Gesture :=
  let c := cl g in
  let b := cblock c in
  mkGesture
    (mkClosure b true (isResizing c) false
       (mkPoint (px w - px (position b)) (py w - py (position b)))
       (resizeStart c) (corner c) (lastClickTime c) (editing c)
       (moveAttached c) (upAttached c) (resizeAttached c))
    (selectBlock (id b) multi (store g)).

(** Strict [>] on numbers. *)
Definition Qltb (a b : Q) : bool := negb (Qle_bool b a).

(** [handlePointerMove] *)
Definition handlePointerMove (w : Point) (g : Gesture) : Gesture :=
  let c := cl g in
  let b := cblock c in
  if moveAttached c && isDragging c && negb (isResizing c) then
    let newX := px w - px (dragStart c) in
    let newY := py w - py (dragStart c) in
    let crossed :=
      Qltb 5 (Qabs (newX - px (position b))) ||
      Qltb 5 (Qabs (newY - py (position b))) in
    let dragging' := if crossed then true else dragging c in
    let c' := mkClosure b (isDragging c) (isResizing c) dragging' (dragStart c)
                (resizeStart c) (corner c) (lastClickTime c) (editing c)
                (moveAttached c) (upAttached c) (resizeAttached c) in
    mkGesture c' (if dragging' then moveBlock (id b) newX newY (store g) else store g)
  else g.

(** [handlePointerUp] at time [now] ([Date.now()]). *)
Definition handlePointerUp (now : Z) (g : Gesture) : Gesture :=
  let c := cl g in
  let b := cblock c in
  if upAttached c && (isDragging c || isResizing c) then
    let wasResizing := isResizing c in
    let c1 := mkClosure b false false (dragging c) (dragStart c)
                (resizeStart c) (corner c) (lastClickTime c) (editing c)
                false false (resizeAttached c) in
    if negb (dragging c) && negb wasResizing &&
       match type b with TText => true | _ => false end then
      if (now - lastClickTime c <? doubleClickSpeed)%Z then
        let c2 := startEditing c1 in
        set_cl g (mkClosure b false false (dragging c2) (dragStart c2)
                    (resizeStart c2) (corner c2) 0 (editing c2)
                    false false (resizeAttached c2))
      else
        set_cl g (mkClosure b false false (dragging c1) (dragStart c1)
                    (resizeStart c1) (corner c1) now (editing c1)
                    false false (resizeAttached c1))
    else set_cl g c1
  else g.

(** Resize handle [pointerdown] at world point [w]. *)
Definition handle_pointerdown (k : Corner) (w : Point) (g : Gesture) : Gesture :=
  let c := cl g in
  let b := cblock c in
  set_cl g (mkClosure b false true (dragging c) (dragStart c)
              (mkSize (width (size b)) (height (size b)), w) k
              (lastClickTime c) (editing c)
              (moveAttached c) (upAttached c) true).

(** The geometry computed by [handleResizeMove] before the store calls:
    [(newWidth, newHeight, newX, newY)] after the [Math.max(50, ...)]. *)
Definition resize_geometry (k : Corner) (b : Block) (rs : Size * Point) (w : Point)
  : Q * Q * Q * Q :=
  let '(s0, p0) := rs in
  let deltaX := px w - px p0 in
  let deltaY := py w - py p0 in
  let bx := px (position b) in
  let by_ := py (position b) in
  let '(nw, nh, nx, ny) :=
    match k with
    | BR => (width s0 + deltaX, height s0 + deltaY, bx, by_)
    | TL => (width s0 - deltaX, height s0 - deltaY, bx + deltaX, by_ + deltaY)
    | TR => (width s0 + deltaX, height s0 - deltaY, bx, by_ + deltaY)
    | BL => (width s0 - deltaX, height s0 + deltaY, bx + deltaX, by_)
    end in
  (Qmax 50 nw, Qmax 50 nh, nx, ny).

(** [handleResizeMove] *)
Definition handleResizeMove (w : Point) (g : Gesture) : Gesture :=
  let c := cl g in
  let b := cblock c in
  if resizeAttached c && isResizing c then
    let '(nw, nh, nx, ny) := resize_geometry (corner c) b (resizeStart c) w in
    let st1 :=
      if negb (Qeq_bool nx (px (position b))) || negb (Qeq_bool ny (py (position b)))
      then moveBlock (id b) nx ny (store g) else store g in
    mkGesture c (resizeBlock (id b) nw nh st1)
  else g.

(** [handleResizeEnd] *)
Definition handleResizeEnd (g : Gesture) : Gesture :=
  let c := cl g in
  if resizeAttached c then
    set_cl g (mkClosure (cblock c) (isDragging c) false (dragging c) (dragStart c)
                (resizeStart c) (corner c) (lastClickTime c) (editing c)
                (moveAttached c) (upAttached c) false)
  else g.

(** ** Connect gesture: [blockContainer.on('pointerdown')] with Shift held

    [connectingFrom] is read from the connections store (the effect
    depends on it, so the handler sees the current value); [fresh] is the
    id [addConnection] would generate. *)
Definition js_truthy (o : option string) : bool :=
  match o with None => false | Some s => negb (String.eqb s "") end.

Definition block_pointerdown_shift (fresh bid : string) (cs : ConnectionsState)
  : ConnectionsState :=
  match connectingFrom cs with
  | Some f =>
      if js_truthy (Some f) then
        if negb (String.eqb f bid)
        then setConnectingFrom None (addConnection fresh f bid cs)
        else cs
      else setConnectingFrom (Some bid) cs
  | None => setConnectingFrom (Some bid) cs
  end.

(** ** Edit session: [startEditingSystemBlock] *)

Record EditSession := mkEditSession {
  es_store : BlocksState;
  es_block : Block;     (* the [block] snapshot of the closure *)
  textarea : string;    (* [textarea.value] *)
  es_active : bool      (* textarea in the DOM, listeners attached *)
}.

(** [block.content.text || ''] *)
Definition content_text (c : Content) : string :=
  match c with TextContent t _ _ => t | ImageContent _ _ => "" end.

(** [{ ...block.content, text: v }] for a text block. *)
Definition set_text (c : Content) (t : string) : Content :=
  match c with
  | TextContent _ f col => TextContent t f col
  | ImageContent _ _ => c
  end.

(** [textarea.value || ' '] *)
Definition or_space (v : string) : string :=
  if String.eqb v "" then " " else v.

Definition start_edit (b : Block) (st : BlocksState) : EditSession :=
  mkEditSession st b (content_text (content b)) true.

Inductive EditEvent := EvInput (v : string) | EvEnter | EvEscape | EvBlur.

(** [updateBlock(block.id, { content: { ...block.content, text: textarea.value || ' ' } })] *)
Definition write_back (e : EditSession) : BlocksState :=
  updateBlockContent (id (es_block e))
    (set_text (content (es_block e)) (or_space (textarea e))) (es_store e).

(** The [input] listener, [saveAndExit] (Enter without Shift, [blur]) and
    [cancelAndExit] (Escape); after [cleanup] nothing is attached. *)
Definition edit_step (ev : EditEvent) (e : EditSession) : EditSession :=
  if es_active e then
    match ev with
    | EvInput v =>
        let e1 := mkEditSession (es_store e) (es_block e) v true in
        mkEditSession (write_back e1) (es_block e) v true
    | EvEnter | EvBlur =>
        mkEditSession (write_back e) (es_block e) (textarea e) false
    | EvEscape =>
        mkEditSession (es_store e) (es_block e) (textarea e) false
    end
  else e.

Definition edit_run (evs : list EditEvent) (e : EditSession) : EditSession :=
  fold_left (fun acc ev => edit_step ev acc) evs e.

(** ** Paste handler of [part_005]

    An image item either has no file ([getAsFile()] is [null]) or a file
    whose [Image] fires [onerror] or [onload]; at [onload], [img.width] and
    [img.height] are the natural size, two non-negative integers. *)
Inductive ImageItem := NoFile | ImageFile (loaded : option (N * N)).

Record Clipboard := mkClipboard {
  image_item : option ImageItem;   (* [items.find(type startsWith 'image/')] *)
  text_data : string               (* [getData('text')], [""] when absent *)
}.

Definition QN (n : N) : Q := inject_Z (Z.of_N n).

(** [height = width / aspectRatio] with [width = 300] and
    [aspectRatio = img.width / img.height], for a natural width [iw > 0]:
    a height [ih = 0] makes [aspectRatio] [Infinity] and [300 / Infinity]
    is [0]. *)
Definition paste_image_height (iw ih : N) : Q :=
  if N.eqb ih 0 then 0 else 300 / (QN iw / QN ih).

(** What the handler leaves in the store.  For an image of natural width
    0, [aspectRatio] is [0] (or [NaN] when the height is 0 too), so
    [height] is [Infinity] (or [NaN]), [Math.max(height, 50)] keeps it and
    [y] is [-Infinity] (or [NaN]): the code appends to the store an image
    block whose height and [y] are not finite numbers.  Rationals do not
    represent that block; [PastedNonFinite st] records that it is appended
    to [st]. *)
Inductive PasteResult :=
| Pasted (st : BlocksState)
| PastedNonFinite (st : BlocksState).


(** [center] is [viewport.toWorld(rect.width / 2, rect.height / 2)];
    [bid] and [url] are the generated block id and blob URL. *)
Definition handlePaste (bid url : string) (center : Point) (clip : Clipboard)
  (st : BlocksState) : PasteResult :=
  match image_item clip with
  | Some (ImageFile (Some (iw, ih))) =>
      if N.eqb iw 0 then PastedNonFinite st
      else
        let w := 300 in
        let h := paste_image_height iw ih in
        Pasted (addBlock (createImageBlock bid (px center - w / 2) (py center - h / 2) url w h) st)
  | Some (ImageFile None) => Pasted st
  | Some NoFile => Pasted st
  | None =>
      if String.eqb (text_data clip) "" then Pasted st
      else Pasted (addBlock (createTextBlock bid (px center - 100) (py center - 50) (text_data clip)) st)
  end.

(** ** Sequences of blocks-store actions *)

Inductive StoreOp :=
| OpAddText (bid : string) (x y : Q) (text : string)
| OpAddImage (bid : string) (x y : Q) (url : string) (w h : Q)
| OpSelect (bid : string) (multi : bool)
| OpDeselectAll
| OpDelete (bid : string)
| OpMove (bid : string) (x y : Q)
| OpResize (bid : string) (w h : Q).

Definition apply_op (op : StoreOp) (st : BlocksState) : BlocksState :=
  match op with
  | OpAddText bid x y t => addBlock (createTextBlock bid x y t) st
  | OpAddImage bid x y u w h => addBlock (createImageBlock bid x y u w h) st
  | OpSelect bid m => selectBlock bid m st
  | OpDeselectAll => deselectAll st
  | OpDelete bid => deleteBlock bid st
  | OpMove bid x y => moveBlock bid x y st
  | OpResize bid w h => resizeBlock bid w h st
  end.

(** The id a helper generates ([block-${Date.now()}-${random}]) is fresh:
    in particular it is not in the selection set when the block is added. *)
Definition op_fresh (op : StoreOp) (st : BlocksState) : bool :=
  match op with
  | OpAddText bid _ _ _ | OpAddImage bid _ _ _ _ _ =>
      negb (set_has (selectedBlockIds st) bid)
  | _ => true
  end.

Fixpoint run_ops (ops : list StoreOp) (st : BlocksState) : BlocksState :=
  match ops with
  | [] => st
  | op :: rest => run_ops rest (apply_op op st)
  end.

Fixpoint ops_fresh (ops : list StoreOp) (st : BlocksState) : bool :=
  match ops with
  | [] => true
  | op :: rest => op_fresh op st && ops_fresh rest (apply_op op st)
  end.

(** Both representations of the selection agree. *)
Definition selection_consistent (st : BlocksState) : Prop :=
  forall b, In b (blocks st) -> selected b = set_has (selectedBlockIds st) (id b).

Definition emptyBlocksState : BlocksState := mkBlocksState [] [].

(** The specification's [createBlock] contract: [ValidationError] on a
    non-positive size component, the clamped block otherwise. *)
Inductive CreateResult := ValidationError | Created (b : Block).

Definition createBlock_spec (bid : string) (x y : Q) (url : string) (w h : Q)
  : CreateResult :=
  if Qle_bool w 0 || Qle_bool h 0 then ValidationError
  else Created (createImageBlock bid x y url w h).

(** What the code does on every input: the helper returns the block. *)
Definition createBlock_code (bid : string) (x y : Q) (url : string) (w h : Q)
  : CreateResult :=
  Created (createImageBlock bid x y url w h).

(** ** Further store actions and handlers *)

(** [setConnectionMode(enabled)]:
    [connectingFrom: enabled ? null : get().connectingFrom]. *)
Definition setConnectionMode (enabled : bool) (cs : ConnectionsState)
  : ConnectionsState :=
  mkConnectionsState (connections cs) enabled
    (if enabled then None else connectingFrom cs).

(** [getBlockConnections(blockId)] *)
Definition getBlockConnections (bid : string) (cs : ConnectionsState) : list Connection :=
  filter (fun c => String.eqb (cfrom c) bid || String.eqb (cto c) bid) (connections cs).

(** Every action the code performs on the connections store, including the
    Shift pointer-down of the connect gesture. *)
Inductive ConnOp :=
| CAdd (fresh from to : string)
| CDelete (x : string)
| CSetFrom (v : option string)
| CMode (enabled : bool)
| CShiftDown (fresh bid : string).

Definition apply_conn_op (op : ConnOp) (cs : ConnectionsState) : ConnectionsState :=
  match op with
  | CAdd f a b => addConnection f a b cs
  | CDelete x => deleteConnection x cs
  | CSetFrom v => setConnectingFrom v cs
  | CMode e => setConnectionMode e cs
  | CShiftDown f b => block_pointerdown_shift f b cs
  end.

Definition run_conn_ops (ops : list ConnOp) (cs : ConnectionsState) : ConnectionsState :=
  fold_left (fun acc op => apply_conn_op op acc) ops cs.

(** No two connections of the list join the same unordered pair. *)
Fixpoint pair_nodup (l : list Connection) : Prop :=
  match l with
  | [] => True
  | c :: r => existsb (fun c' => connects c' (cfrom c) (cto c)) r = false /\ pair_nodup r
  end.

Definition conn_wf (l : list Connection) : Prop :=
  Forall (fun c => cfrom c <> cto c) l /\ pair_nodup l.

(** Keyboard [Delete]/[Backspace] in [handleKeyDown]:
    [Array.from(state.selectedBlockIds).forEach(id => state.deleteBlock(id))];
    the array is a snapshot, each [deleteBlock] replaces the store's set. *)
Definition delete_selected (st : BlocksState) : BlocksState :=
  fold_left (fun acc x => deleteBlock x acc) (selectedBlockIds st) st.

(** The canvas [dblclick] listener at world point [w]:
    [addBlock(createTextBlock(worldPos.x - 100, worldPos.y - 50))], the
    default text being ['New Note']. *)
Definition canvas_dblclick (bid : string) (w : Point) (st : BlocksState) : BlocksState :=
  addBlock (createTextBlock bid (px w - 100) (py w - 50) "New Note") st.

(** The connection render effect for one connection whose two endpoint
    blocks were found: the bezier from the center of [fb] to the center of
    [tb], with control points [(fromX + controlOffset, fromY)] and
    [(toX - controlOffset, toY)]. *)
Record Curve := mkCurve {
  start_pt : Point; control1 : Point; control2 : Point; end_pt : Point;
  controlOffset : Q
}.

Definition connection_curve (fb tb : Block) : Curve :=
  let fromX := px (position fb) + width (size fb) / 2 in
  let fromY := py (position fb) + height (size fb) / 2 in
  let toX := px (position tb) + width (size tb) / 2 in
  let toY := py (position tb) + height (size tb) / 2 in
  let distance := Qabs (toX - fromX) in
  let off := Qmin (distance * (1 # 2)) 100 in
  mkCurve (mkPoint fromX fromY) (mkPoint (fromX + off) fromY)
    (mkPoint (toX - off) toY) (mkPoint toX toY) off.

(** Every block is at least 50 x 50. *)
Definition sizes_ok (st : BlocksState) : Prop :=
  forall b, In b (blocks st) -> 50 <= width (size b) /\ 50 <= height (size b).

(** Point equality on numbers ([===] on both coordinates). *)
Definition peq (p q : Point) : Prop := px p == px q /\ py p == py q.

(** The corner of the block that the resize handle [k] grabs, and the
    corner opposite to it. *)
Definition handle_corner (k : Corner) (p : Point) (s : Size) : Point :=
  match k with
  | BR => mkPoint (px p + width s) (py p + height s)
  | TL => p
  | TR => mkPoint (px p + width s) (py p)
  | BL => mkPoint (px p) (py p + height s)
  end.

Definition anchor_corner (k : Corner) (p : Point) (s : Size) : Point :=
  match k with
  | BR => p
  | TL => mkPoint (px p + width s) (py p + height s)
  | TR => mkPoint (px p) (py p + height s)
  | BL => mkPoint (px p + width s) (py p)
  end.

(** The width and height of the [switch (handleType)] of
    [handleResizeMove], before the [Math.max(50, ...)] clamp. *)
Definition unclamped_size (k : Corner) (s : Size) (dX dY : Q) : Q * Q :=
  match k with
  | BR => (width s + dX, height s + dY)
  | TL => (width s - dX, height s - dY)
  | TR => (width s + dX, height s - dY)
  | BL => (width s - dX, height s + dY)
  end.

(** ** The blocks effect, re-run by React

    Every run of the blocks effect ([useEffect(..., [blocks, ...])]) builds,
    for every block of the store, a fresh closure ([init_closure]: among
    others [lastClickTime = 0], [editing] unset) and attaches its
    [handlePointerMove] and [handlePointerUp] to the viewport.  The effect
    has no cleanup, so the viewport listeners of earlier runs stay
    attached until their own handler detaches them.  A [World] holds every
    closure allocated so far, in allocation order, and the blocks store. *)
Record World := mkWorld { closures : list Closure; wstore : BlocksState }.

Definition effect_run (wd : World) : World :=
  mkWorld (closures wd ++ map init_closure (blocks (wstore wd))) (wstore wd).

(** The closures of the first run, on the store [st]. *)
Definition initial_world (st : BlocksState) : World := effect_run (mkWorld [] st).

Fixpoint set_nth {A : Type} (l : list A) (i : nat) (x : A) : list A :=
  match l, i with
  | [], _ => []
  | _ :: t, O => x :: t
  | y :: t, S j => y :: set_nth t j x
  end.

(** A handler of closure [i] runs against the shared store. *)
Definition on_closure (i : nat) (f : Gesture -> Gesture) (wd : World) : World :=
  match nth_error (closures wd) i with
  | Some c =>
      let g := f (mkGesture c (wstore wd)) in
      mkWorld (set_nth (closures wd) i (cl g)) (store g)
  | None => wd
  end.

(** One listener invocation.  A DOM event runs several of them (a viewport
    [pointerup] runs every attached [handlePointerUp] and
    [handleResizeEnd]) and React re-runs the effect after a store change;
    runs are arbitrary sequences of invocations, which covers every order
    the browser and React can produce. *)
Inductive WEvent :=
| WBlockDown (i : nat) (multi : bool) (w : Point) (* container pointerdown, no Shift *)
| WHandleDown (i : nat) (k : Corner) (w : Point)  (* resize handle pointerdown *)
| WPointerMove (i : nat) (w : Point)              (* [handlePointerMove] *)
| WResizeMove (i : nat) (w : Point)               (* [handleResizeMove] *)
| WPointerUp (i : nat) (now : Z)                  (* [handlePointerUp], [Date.now()] = [now] *)
| WResizeEnd (i : nat)                            (* [handleResizeEnd] *)
| WEffect.                                        (* the effect runs again *)

Definition world_step (ev : WEvent) (wd : World) : World :=
  match ev with
  | WBlockDown i m w => on_closure i (block_pointerdown_plain m w) wd
  | WHandleDown i k w => on_closure i (handle_pointerdown k w) wd
  | WPointerMove i w => on_closure i (handlePointerMove w) wd
  | WResizeMove i w => on_closure i (handleResizeMove w) wd
  | WPointerUp i now => on_closure i (handlePointerUp now) wd
  | WResizeEnd i => on_closure i handleResizeEnd wd
  | WEffect => effect_run wd
  end.

Definition world_run (evs : list WEvent) (wd : World) : World :=
  fold_left (fun acc ev => world_step ev acc) evs wd.

(** [Date.now()] is at least 300 at every pointer-up (it counts
    milliseconds since 1970). *)
Definition up_times_ok (evs : list WEvent) : Prop :=
  Forall (fun ev => match ev with WPointerUp _ now => (300 <= now)%Z | _ => True end) evs.

(** A closure is not editing, and while its [pointerup] listener is
    attached its [lastClickTime] is still 0. *)
Definition click_inv (c : Closure) : Prop :=
  editing c = false /\ (upAttached c = true -> lastClickTime c = 0%Z).

(** * Lemmas *)

Lemma set_has_filter_neq (s : IdSet) (x : string) :
  set_has (filter (fun y => negb (String.eqb y x)) s) x = false.
Proof.
  induction s as [|y s IH]; simpl; [reflexivity|].
  destruct (String.eqb y x) eqn:E; simpl; [exact IH|].
  rewrite IH. rewrite String.eqb_sym, E. reflexivity.
Qed.

Lemma set_has_filter_other (s : IdSet) (x z : string) :
  z <> x ->
  set_has (filter (fun y => negb (String.eqb y x)) s) z = set_has s z.
Proof.
  intros Hne. induction s as [|y s IH]; simpl; [reflexivity|].
  destruct (String.eqb y x) eqn:E; simpl.
  - apply String.eqb_eq in E; subst y.
    rewrite IH. apply String.eqb_neq in Hne. rewrite Hne. reflexivity.
  - rewrite IH. reflexivity.
Qed.

Lemma in_filter_block_neq (bs : list Block) (bid : string) (b : Block) :
  In b (filter (fun b => negb (String.eqb (id b) bid)) bs) -> id b <> bid.
Proof.
  intros H. apply filter_In in H as [_ H].
  apply negb_true_iff, String.eqb_neq in H. exact H.
Qed.

(** * Claims *)

(** C1 (counterexample): [deleteBlock] leaves the connections store as it
    is, so a connection referencing the deleted block is still there. *)
Lemma C1_connection_survives_delete :
  let a0 := mkAppState
      (mkBlocksState
         [mkBlock "a" TText (TextContent "x" 16 "#ffffff") (mkPoint 0 0)
            (mkSize 200 100) true false true;
          mkBlock "b" TText (TextContent "y" 16 "#ffffff") (mkPoint 300 0)
            (mkSize 200 100) false false true] ["a"])
      (mkConnectionsState [mkConnection "c1" "a" "b"] false None) in
  existsb (fun c => String.eqb (cfrom c) "a" || String.eqb (cto c) "a")
    (connections (cstore (app_deleteBlock "a" a0))) = true.
Proof. vm_compute. reflexivity. Qed.

(** C1 (amended): [deleteBlock(id)] removes every block with that id, keeps
    every other block, and removes [id] from [selectedBlockIds]; the
    connections store is unchanged, and the connections the renderer draws
    (those whose two endpoints are found among the blocks) never reference
    the deleted id. *)
Theorem C1_deleteBlock_amended (a : AppState) (bid : string) :
  let a' := app_deleteBlock bid a in
  (forall b, In b (blocks (bstore a')) -> id b <> bid) /\
  (forall b, In b (blocks (bstore a)) -> id b <> bid -> In b (blocks (bstore a'))) /\
  set_has (selectedBlockIds (bstore a')) bid = false /\
  cstore a' = cstore a /\
  (forall c, In c (drawn_connections (blocks (bstore a')) (connections (cstore a'))) ->
             cfrom c <> bid /\ cto c <> bid).
Proof.
  simpl. split; [|split; [|split; [|split; [reflexivity|]]]].
  - intros b Hb. exact (in_filter_block_neq _ _ _ Hb).
  - intros b Hb Hne. apply filter_In. split; [exact Hb|].
    apply negb_true_iff, String.eqb_neq. exact Hne.
  - apply set_has_filter_neq.
  - intros c Hc. apply filter_In in Hc as [_ Hc]. split.
    + destruct (find_block _ (cfrom c)) as [bf|] eqn:Ef; [|discriminate].
      apply find_some in Ef as [Hin Heq].
      apply String.eqb_eq in Heq. rewrite <- Heq.
      exact (in_filter_block_neq _ _ _ Hin).
    + destruct (find_block _ (cfrom c)); [|discriminate].
      destruct (find_block _ (cto c)) as [bt|] eqn:Et; [|discriminate].
      apply find_some in Et as [Hin Heq].
      apply String.eqb_eq in Heq. rewrite <- Heq.
      exact (in_filter_block_neq _ _ _ Hin).
Qed.


(** C3 (counterexample): a non-positive size component does not make block
    creation fail: [createImageBlock] with width -10 returns a block of
    width 50, where the spec contract answers [ValidationError]. *)
Lemma C3_no_validation_error :
  createBlock_spec "b" 0 0 "u" (-10) 10 = ValidationError /\
  createBlock_code "b" 0 0 "u" (-10) 10 <> ValidationError /\
  Qeq_bool (width (size (createImageBlock "b" 0 0 "u" (-10) 10))) 50 = true.
Proof. vm_compute. split; [reflexivity|split; [discriminate|reflexivity]]. Qed.

(** C3 (amended): block creation never fails and raises no error for any
    size: [createImageBlock] clamps width and height to [max(., 50)]
    whatever their sign, [createTextBlock] always builds a 200 x 100 block,
    and [addBlock] appends the block it is given unchanged. *)
Theorem C3_creation_clamps_never_fails (bid : string) (x y : Q) (url text : string)
  (w h : Q) (st : BlocksState) :
  createBlock_code bid x y url w h <> ValidationError /\
  width (size (createImageBlock bid x y url w h)) = Qmax w 50 /\
  height (size (createImageBlock bid x y url w h)) = Qmax h 50 /\
  50 <= width (size (createImageBlock bid x y url w h)) /\
  50 <= height (size (createImageBlock bid x y url w h)) /\
  size (createTextBlock bid x y text) = mkSize 200 100 /\
  blocks (addBlock (createImageBlock bid x y url w h) st)
    = blocks st ++ [createImageBlock bid x y url w h].
Proof.
  split; [discriminate|].
  split; [reflexivity|]. split; [reflexivity|].
  split; [apply Q.le_max_r|]. split; [apply Q.le_max_r|].
  split; reflexivity.
Qed.

(** C4 (counterexample): a second Shift pointer-down on the block that
    started the gesture leaves [connectingFrom] set. *)
Lemma C4_same_block_keeps_connectingFrom :
  let cs := mkConnectionsState [] false (Some "a") in
  connectingFrom (block_pointerdown_shift "c1" "a" cs) = Some "a" /\
  connections (block_pointerdown_shift "c1" "a" cs) = [].
Proof. split; reflexivity. Qed.

(** C4 (amended): while [connectingFrom] holds a block id [f], a Shift
    pointer-down on a different block leaves a connection between [f] and
    that block in the store (a new one, or the one already joining the
    pair), keeps every existing connection and clears [connectingFrom]; a
    Shift pointer-down on [f] itself changes nothing, [connectingFrom]
    stays [f] and no connection is created. *)
Theorem C4_connect_gesture (cs : ConnectionsState) (f bid fresh : string)
  (Hf : connectingFrom cs = Some f) (Hne : f <> "") :
  (bid <> f ->
     connectingFrom (block_pointerdown_shift fresh bid cs) = None /\
     (exists c, In c (connections (block_pointerdown_shift fresh bid cs)) /\
                connects c f bid = true) /\
     (forall c, In c (connections cs) ->
                In c (connections (block_pointerdown_shift fresh bid cs)))) /\
  (bid = f -> block_pointerdown_shift fresh bid cs = cs).
Proof.
  unfold block_pointerdown_shift. rewrite Hf.
  assert (Ht : js_truthy (Some f) = true).
  { simpl. apply String.eqb_neq in Hne. rewrite Hne. reflexivity. }
  rewrite Ht. split.
  - intros Hb. assert (E : String.eqb f bid = false).
    { apply String.eqb_neq. intro; subst; apply Hb; reflexivity. }
    rewrite E. simpl. unfold addConnection. rewrite E.
    destruct (existsb (fun c => connects c f bid) (connections cs)) eqn:Ex; simpl.
    + split; [reflexivity|]. split; [|intros c Hc; exact Hc].
      apply existsb_exists in Ex. exact Ex.
    + split; [reflexivity|]. split.
      * exists (mkConnection fresh f bid). split.
        -- apply in_or_app. right. left. reflexivity.
        -- unfold connects. simpl. rewrite !String.eqb_refl. reflexivity.
      * intros c Hc. apply in_or_app. left. exact Hc.
  - intros ->. rewrite String.eqb_refl. reflexivity.
Qed.

Lemma C4_connect_gesture_witness :
  connectingFrom (mkConnectionsState [] false (Some "a")) = Some "a" /\
  "a" <> "" /\
  ((("b" <> "a") ->
     connectingFrom (block_pointerdown_shift "c1" "b" (mkConnectionsState [] false (Some "a"))) = None /\
     (exists c, In c (connections (block_pointerdown_shift "c1" "b" (mkConnectionsState [] false (Some "a")))) /\
                connects c "a" "b" = true) /\
     (forall c, In c (connections (mkConnectionsState [] false (Some "a"))) ->
                In c (connections (block_pointerdown_shift "c1" "b" (mkConnectionsState [] false (Some "a")))))) /\
   ("b" = "a" -> block_pointerdown_shift "c1" "b" (mkConnectionsState [] false (Some "a"))
                 = mkConnectionsState [] false (Some "a"))).
Proof.
  split; [reflexivity|]. split; [discriminate|].
  apply (C4_connect_gesture (mkConnectionsState [] false (Some "a")) "a" "b" "c1");
    [reflexivity|discriminate].
Defined.

(** ** Lemmas on the gesture handlers *)

Lemma find_block_map (f : Block -> Block) (bs : list Block) (x : string) :
  (forall b, id (f b) = id b) ->
  find_block (map f bs) x = option_map f (find_block bs x).
Proof.
  intros Hf. unfold find_block. induction bs as [|b bs IH]; simpl; [reflexivity|].
  rewrite Hf. destruct (String.eqb (id b) x); [reflexivity|exact IH].
Qed.

Lemma find_block_id (bs : list Block) (x : string) (b : Block) :
  find_block bs x = Some b -> id b = x.
Proof.
  intros H. apply find_some in H as [_ H]. apply String.eqb_eq in H. exact H.
Qed.

Lemma find_block_moveBlock (st : BlocksState) (bid : string) (x y : Q) (b0 : Block) :
  find_block (blocks st) bid = Some b0 ->
  find_block (blocks (moveBlock bid x y st)) bid = Some (with_position b0 (mkPoint x y)).
Proof.
  intros H. simpl. rewrite find_block_map by (intros b; destruct (String.eqb (id b) bid); reflexivity).
  rewrite H. simpl. rewrite (find_block_id _ _ _ H), String.eqb_refl. reflexivity.
Qed.

Lemma find_block_resizeBlock (st : BlocksState) (bid : string) (w h : Q) (b0 : Block) :
  find_block (blocks st) bid = Some b0 ->
  find_block (blocks (resizeBlock bid w h st)) bid
    = Some (with_size b0 (mkSize (Qmax 50 w) (Qmax 50 h))).
Proof.
  intros H. simpl. rewrite find_block_map by (intros b; destruct (String.eqb (id b) bid); reflexivity).
  rewrite H. simpl. rewrite (find_block_id _ _ _ H), String.eqb_refl. reflexivity.
Qed.

Lemma find_block_selectBlock (st : BlocksState) (bid x : string) (m : bool) :
  find_block (blocks (selectBlock bid m st)) x <> None <-> find_block (blocks st) x <> None.
Proof.
  simpl. rewrite find_block_map by reflexivity.
  destruct (find_block (blocks st) x); simpl; split; congruence.
Qed.

Lemma find_block_moveBlock_other (st : BlocksState) (bid x : string) (a c : Q) :
  find_block (blocks (moveBlock bid a c st)) x <> None <-> find_block (blocks st) x <> None.
Proof.
  simpl. rewrite find_block_map by (intros b; destruct (String.eqb (id b) bid); reflexivity).
  destruct (find_block (blocks st) x); simpl; split; congruence.
Qed.

(** The floor of [handleResizeMove]: the size it asks for is at least 50. *)
Lemma resize_geometry_floor (k : Corner) (b : Block) (rs : Size * Point) (w : Point) :
  let '(nw, nh, _, _) := resize_geometry k b rs w in 50 <= nw /\ 50 <= nh.
Proof.
  destruct rs as [s0 p0]. unfold resize_geometry.
  destruct k; split; apply Q.le_max_l.
Qed.

Definition with_dragging (c : Closure) (d : bool) : Closure :=
  mkClosure (cblock c) (isDragging c) (isResizing c) d (dragStart c)
    (resizeStart c) (corner c) (lastClickTime c) (editing c)
    (moveAttached c) (upAttached c) (resizeAttached c).

(** The threshold test of [handlePointerMove]. *)
Definition crossed (c : Closure) (w : Point) : bool :=
  Qltb 5 (Qabs (px w - px (dragStart c) - px (position (cblock c)))) ||
  Qltb 5 (Qabs (py w - py (dragStart c) - py (position (cblock c)))).

Definition run_moves (ws : list Point) (g : Gesture) : Gesture :=
  fold_left (fun acc w => handlePointerMove w acc) ws g.

Lemma move_step (c : Closure) (st : BlocksState) (w : Point) :
  isDragging c = true -> isResizing c = false -> moveAttached c = true ->
  handlePointerMove w (mkGesture c st)
  = mkGesture (with_dragging c (crossed c w || dragging c))
      (if crossed c w || dragging c
       then moveBlock (id (cblock c)) (px w - px (dragStart c)) (py w - py (dragStart c)) st
       else st).
Proof.
  intros H1 H2 H3. destruct c; simpl in *; subst.
  unfold handlePointerMove, crossed, with_dragging. simpl.
  destruct (_ || _); reflexivity.
Qed.

Lemma run_moves_inv (ws : list Point) (c : Closure) (st : BlocksState) :
  isDragging c = true -> isResizing c = false -> moveAttached c = true ->
  exists st',
    run_moves ws (mkGesture c st)
      = mkGesture (with_dragging c (existsb (crossed c) ws || dragging c)) st' /\
    (find_block (blocks st) (id (cblock c)) <> None ->
     find_block (blocks st') (id (cblock c)) <> None).
Proof.
  revert c st. induction ws as [|w ws IH]; intros c st H1 H2 H3.
  - exists st. split; [|tauto].
    destruct c; reflexivity.
  - unfold run_moves. simpl. fold (run_moves ws).
    rewrite (move_step c st w H1 H2 H3).
    set (d := crossed c w || dragging c).
    destruct (IH (with_dragging c d)
                (if d then moveBlock (id (cblock c)) (px w - px (dragStart c))
                             (py w - py (dragStart c)) st else st) H1 H2 H3)
      as [st' [E P]].
    exists st'. split.
    + unfold run_moves in E. rewrite E.
      change (crossed (with_dragging c d)) with (crossed c).
      change (with_dragging (with_dragging c d)) with (with_dragging c).
      change (dragging (with_dragging c d)) with d.
      unfold d. destruct (crossed c w), (existsb (crossed c) ws), (dragging c); reflexivity.
    + intros Hp. apply P. destruct d; [|exact Hp].
      apply find_block_moveBlock_other. exact Hp.
Qed.

Lemma pointer_up_detaches (now : Z) (g : Gesture) :
  upAttached (cl g) = true -> isDragging (cl g) = true ->
  moveAttached (cl (handlePointerUp now g)) = false /\
  isDragging (cl (handlePointerUp now g)) = false.
Proof.
  destruct g as [c st]. intros H1 H2. unfold handlePointerUp. simpl in *.
  rewrite H1, H2. simpl.
  destruct (negb (dragging c) && negb (isResizing c) && _); [|split; reflexivity].
  destruct (_ <? _)%Z; split; reflexivity.
Qed.

Lemma move_detached (w : Point) (g : Gesture) :
  moveAttached (cl g) = false -> handlePointerMove w g = g.
Proof. intros H. unfold handlePointerMove. rewrite H. reflexivity. Qed.

Lemma Qltb_threshold (a c p : Q) :
  Qltb 5 (Qabs (a - (c - p) - p)) = Qltb 5 (Qabs (a - c)).
Proof.
  assert (E : a - (c - p) - p == a - c) by ring.
  unfold Qltb. f_equal. apply Bool.eq_iff_eq_true. rewrite !Qle_bool_iff.
  rewrite E. reflexivity.
Qed.

Lemma existsb_ext_fun {A} (f g : A -> bool) (l : list A) :
  (forall x, f x = g x) -> existsb f l = existsb g l.
Proof.
  intros H. induction l as [|x l IH]; simpl; [reflexivity|]. rewrite H, IH. reflexivity.
Qed.

(** C5 (code_bug): [handleResizeMove] clamps the size to 50 but moves the
    block by the full delta: dragging the top-left handle of a 100 x 100
    block at (0,0) by (+200,+200) gives size (50,50) at position
    (200,200): the top-left corner has crossed the opposite edge, which
    was at (100,100), and the bottom-right corner is now (250,250).  The
    requested size itself never drops below 50 ([resize_geometry_floor]). *)
Theorem C5_resize_overshoot :
  let b := mkBlock "r" TImage (ImageContent "u" (mkSize 100 100)) (mkPoint 0 0)
             (mkSize 100 100) true false true in
  let g := handleResizeMove (mkPoint 200 200)
             (handle_pointerdown TL (mkPoint 0 0)
                (mkGesture (init_closure b) (mkBlocksState [b] ["r"]))) in
  match find_block (blocks (store g)) "r" with
  | Some b' =>
      Qeq_bool (width (size b')) 50 && Qeq_bool (height (size b')) 50 &&
      Qeq_bool (px (position b')) 200 && Qeq_bool (py (position b')) 200 &&
      Qltb 100 (px (position b')) && Qltb 100 (py (position b')) &&
      Qeq_bool (px (position b') + width (size b')) 250 &&
      Qeq_bool (py (position b') + height (size b')) 250
  | None => false
  end = true.
Proof. vm_compute. reflexivity. Qed.

(** C6: a plain (no Shift) pointer-down on block [b] at world point [W1],
    followed by moves [ms] and a move to [W2], where some move went more
    than 5 world units away from [W1] along an axis: the block in the
    store sits at [position b + (W2 - W1)].  A pointer-up then ends the
    gesture, and any further move leaves everything unchanged. *)
Theorem C6_drag_full_delta (b : Block) (st : BlocksState) (multi : bool)
  (W1 W2 : Point) (ms : list Point)
  (Hin : find_block (blocks st) (id b) <> None)
  (Hcross : existsb (fun w => Qltb 5 (Qabs (px w - px W1)) || Qltb 5 (Qabs (py w - py W1)))
              (ms ++ [W2]) = true) :
  let g := run_moves (ms ++ [W2])
             (block_pointerdown_plain multi W1 (mkGesture (init_closure b) st)) in
  (exists b', find_block (blocks (store g)) (id b) = Some b' /\
              px (position b') == px (position b) + (px W2 - px W1) /\
              py (position b') == py (position b) + (py W2 - py W1)) /\
  (forall now, isDragging (cl (handlePointerUp now g)) = false /\
               forall w, handlePointerMove w (handlePointerUp now g) = handlePointerUp now g).
Proof.
  set (g1 := block_pointerdown_plain multi W1 (mkGesture (init_closure b) st)).
  set (c1 := cl g1).
  assert (Hc : forall w, crossed c1 w
                 = (Qltb 5 (Qabs (px w - px W1)) || Qltb 5 (Qabs (py w - py W1)))).
  { intros w. unfold crossed, c1, g1, block_pointerdown_plain.
    cbn [cl cblock dragStart px py init_closure]. rewrite !Qltb_threshold. reflexivity. }
  assert (Hin1 : find_block (blocks (store g1)) (id b) <> None).
  { apply find_block_selectBlock. exact Hin. }
  destruct (run_moves_inv ms c1 (store g1) eq_refl eq_refl eq_refl) as [st' [E P]].
  assert (Eg1 : g1 = mkGesture c1 (store g1)) by reflexivity.
  unfold run_moves. rewrite fold_left_app. fold (run_moves ms g1).
  rewrite Eg1, E. simpl fold_left.
  rewrite (move_step (with_dragging c1 _) st' W2 eq_refl eq_refl eq_refl).
  assert (Hd : crossed (with_dragging c1 (existsb (crossed c1) ms || false)) W2 ||
               dragging (with_dragging c1 (existsb (crossed c1) ms || false)) = true).
  { change (crossed c1 W2 || (existsb (crossed c1) ms || false) = true).
    rewrite Bool.orb_false_r, Hc, (existsb_ext_fun _ _ ms Hc).
    rewrite existsb_app in Hcross. simpl in Hcross.
    rewrite Bool.orb_false_r in Hcross. rewrite Bool.orb_comm. exact Hcross. }
  rewrite Hd. split.
  - specialize (P Hin1). simpl in P.
    destruct (find_block (blocks st') (id b)) as [b0|] eqn:Eb0; [|congruence].
    exists (with_position b0 (mkPoint (px W2 - px (dragStart c1)) (py W2 - py (dragStart c1)))).
    split.
    + apply (find_block_moveBlock st' (id b) _ _ b0 Eb0).
    + simpl. split; ring.
  - intros now.
    set (g := mkGesture _ _).
    destruct (pointer_up_detaches now g eq_refl eq_refl) as [Hm Hg].
    split; [exact Hg|]. intros w. apply move_detached. exact Hm.
Qed.

Lemma C6_drag_full_delta_witness :
  let b := mkBlock "d" TText (TextContent "t" 16 "#ffffff") (mkPoint 10 10)
             (mkSize 200 100) false false true in
  find_block (blocks (mkBlocksState [b] [])) (id b) <> None /\
  existsb (fun w => Qltb 5 (Qabs (px w - px (mkPoint 20 20))) ||
                    Qltb 5 (Qabs (py w - py (mkPoint 20 20))))
    ([mkPoint 22 21] ++ [mkPoint 50 40]) = true /\
  let g := run_moves ([mkPoint 22 21] ++ [mkPoint 50 40])
             (block_pointerdown_plain false (mkPoint 20 20)
                (mkGesture (init_closure b) (mkBlocksState [b] []))) in
  (exists b', find_block (blocks (store g)) (id b) = Some b' /\
              px (position b') == px (position b) + (px (mkPoint 50 40) - px (mkPoint 20 20)) /\
              py (position b') == py (position b) + (py (mkPoint 50 40) - py (mkPoint 20 20))) /\
  (forall now, isDragging (cl (handlePointerUp now g)) = false /\
               forall w, handlePointerMove w (handlePointerUp now g) = handlePointerUp now g).
Proof.
  intros b. split; [simpl; discriminate|]. split; [vm_compute; reflexivity|].
  apply (C6_drag_full_delta b (mkBlocksState [b] []) false (mkPoint 20 20) (mkPoint 50 40)
           [mkPoint 22 21]); [simpl; discriminate|vm_compute; reflexivity].
Defined.



(** ** Selection consistency *)

Lemma apply_op_consistent (op : StoreOp) (st : BlocksState) :
  selection_consistent st -> op_fresh op st = true ->
  selection_consistent (apply_op op st).
Proof.
  unfold selection_consistent. intros Hc Hf.
  destruct op as [bid x y t|bid x y u w h|bid m| |bid|bid x y|bid w h];
    simpl in *; intros b Hb.
  - apply in_app_or in Hb as [Hb|[<-|[]]]; [exact (Hc b Hb)|].
    simpl. apply negb_true_iff in Hf. rewrite Hf. reflexivity.
  - apply in_app_or in Hb as [Hb|[<-|[]]]; [exact (Hc b Hb)|].
    simpl. apply negb_true_iff in Hf. rewrite Hf. reflexivity.
  - apply in_map_iff in Hb as [b0 [<- _]]. reflexivity.
  - apply in_map_iff in Hb as [b0 [<- _]]. reflexivity.
  - apply filter_In in Hb as [Hb Hne].
    apply negb_true_iff, String.eqb_neq in Hne.
    rewrite set_has_filter_other by exact Hne. exact (Hc b Hb).
  - apply in_map_iff in Hb as [b0 [<- Hb0]].
    destruct (String.eqb (id b0) bid); exact (Hc b0 Hb0).
  - apply in_map_iff in Hb as [b0 [<- Hb0]].
    destruct (String.eqb (id b0) bid); exact (Hc b0 Hb0).
Qed.

(** C10: starting from a state whose block flags agree with
    [selectedBlockIds] (the empty initial store does), any sequence of
    [addBlock] of a helper-created block with a fresh id, [selectBlock],
    [deselectAll], [deleteBlock], [moveBlock] and [resizeBlock] keeps every
    block's [selected] flag equal to the membership of its id in
    [selectedBlockIds]. *)
Theorem C10_selection_flags_consistent (ops : list StoreOp) (st : BlocksState)
  (Hc : selection_consistent st) (Hf : ops_fresh ops st = true) :
  selection_consistent (run_ops ops st).
Proof.
  revert st Hc Hf. induction ops as [|op ops IH]; intros st Hc Hf; simpl in *; [exact Hc|].
  apply andb_true_iff in Hf as [H1 H2].
  apply IH; [apply apply_op_consistent|]; assumption.
Qed.

Lemma empty_consistent : selection_consistent emptyBlocksState.
Proof. intros b []. Qed.

Lemma C10_selection_flags_consistent_witness :
  let ops := [OpAddText "b1" 0 0 "a"; OpAddImage "b2" 10 10 "u" 20 400;
              OpSelect "b1" false; OpSelect "b2" true; OpMove "b1" 5 5;
              OpResize "b2" 10 10; OpDelete "b1"; OpSelect "b2" true; OpDeselectAll] in
  selection_consistent emptyBlocksState /\ ops_fresh ops emptyBlocksState = true /\
  selection_consistent (run_ops ops emptyBlocksState).
Proof.
  intros ops. split; [exact empty_consistent|]. split; [reflexivity|].
  apply (C10_selection_flags_consistent ops emptyBlocksState empty_consistent).
  reflexivity.
Defined.

(** * Further properties of the code *)

(** ** Connections store *)

Lemma connects_sym (x c : Connection) :
  connects x (cfrom c) (cto c) = connects c (cfrom x) (cto x).
Proof.
  unfold connects.
  rewrite (String.eqb_sym (cfrom x) (cfrom c)), (String.eqb_sym (cto x) (cto c)),
          (String.eqb_sym (cfrom x) (cto c)), (String.eqb_sym (cto x) (cfrom c)).
  destruct (String.eqb (cfrom c) (cfrom x)), (String.eqb (cto c) (cto x)),
           (String.eqb (cto c) (cfrom x)), (String.eqb (cfrom c) (cto x)); reflexivity.
Qed.

Lemma pair_nodup_snoc (l : list Connection) (x : Connection) :
  pair_nodup l -> existsb (fun c => connects c (cfrom x) (cto x)) l = false ->
  pair_nodup (l ++ [x]).
Proof.
  induction l as [|c r IH]; simpl; intros Hl Hx.
  - split; [reflexivity|exact I].
  - destruct Hl as [Hc Hr]. apply orb_false_iff in Hx as [Hcx Hrx].
    split; [|exact (IH Hr Hrx)].
    rewrite existsb_app, Hc. simpl. rewrite connects_sym, Hcx. reflexivity.
Qed.

Lemma existsb_filter_false {A} (f p : A -> bool) (l : list A) :
  existsb f l = false -> existsb f (filter p l) = false.
Proof.
  induction l as [|a l IH]; simpl; [reflexivity|].
  intros H. apply orb_false_iff in H as [Ha Hl].
  destruct (p a); simpl; [rewrite Ha|]; apply IH; exact Hl.
Qed.

Lemma pair_nodup_filter (p : Connection -> bool) (l : list Connection) :
  pair_nodup l -> pair_nodup (filter p l).
Proof.
  induction l as [|c r IH]; simpl; [tauto|].
  intros [Hc Hr]. destruct (p c); simpl; [split|]; auto.
  apply existsb_filter_false. exact Hc.
Qed.

Lemma conn_wf_addConnection (f a b : string) (cs : ConnectionsState) :
  conn_wf (connections cs) -> conn_wf (connections (addConnection f a b cs)).
Proof.
  unfold addConnection. intros [Hs Hd].
  destruct (String.eqb a b) eqn:Eab; [split; assumption|].
  destruct (existsb _ _) eqn:Ex; [split; assumption|].
  simpl. split.
  - apply Forall_app. split; [exact Hs|]. constructor; [|constructor].
    simpl. apply String.eqb_neq. exact Eab.
  - apply pair_nodup_snoc; [exact Hd|exact Ex].
Qed.

Lemma conn_wf_apply (op : ConnOp) (cs : ConnectionsState) :
  conn_wf (connections cs) -> conn_wf (connections (apply_conn_op op cs)).
Proof.
  intros H. destruct op as [f a b|x|v|e|f b]; simpl.
  - apply conn_wf_addConnection. exact H.
  - destruct H as [Hs Hd]. split.
    + apply Forall_forall. intros c Hc. apply filter_In in Hc as [Hc _].
      exact (proj1 (Forall_forall _ _) Hs c Hc).
    + apply pair_nodup_filter. exact Hd.
  - exact H.
  - exact H.
  - unfold block_pointerdown_shift.
    destruct (connectingFrom cs) as [g|]; [|exact H].
    destruct (js_truthy (Some g)); [|exact H].
    destruct (negb (String.eqb g b)); [|exact H].
    apply (conn_wf_addConnection f g b cs). exact H.
Qed.

(** X1: every sequence of connection-store actions ([addConnection],
    [deleteConnection], [setConnectingFrom], [setConnectionMode] and the
    Shift pointer-down of the connect gesture) keeps the connection list
    free of self-links and of two connections joining the same unordered
    pair of blocks. *)
Theorem X1_connections_well_formed (ops : list ConnOp) (cs : ConnectionsState)
  (H : conn_wf (connections cs)) :
  conn_wf (connections (run_conn_ops ops cs)).
Proof.
  revert cs H. induction ops as [|op ops IH]; intros cs H; simpl; [exact H|].
  apply IH. apply conn_wf_apply. exact H.
Qed.

Lemma X1_connections_well_formed_witness :
  conn_wf (connections (mkConnectionsState [] false None)) /\
  conn_wf (connections (run_conn_ops
     [CAdd "c1" "a" "b"; CAdd "c2" "b" "a"; CAdd "c3" "a" "a";
      CShiftDown "c4" "a"; CShiftDown "c5" "c"; CDelete "c1"; CMode true]
     (mkConnectionsState [] false None))).
Proof.
  split; [split; [constructor|exact I]|].
  apply X1_connections_well_formed. split; [constructor|exact I].
Defined.

(** X2: [addConnection(A, B)] followed by [addConnection(B, A)] on a store
    where [A <> B] and no connection joins them adds exactly one
    connection, [A -> B], and clears [connectingFrom] and
    [connectionMode]. *)
Theorem X2_add_both_directions_once (cs : ConnectionsState) (f1 f2 a b : string)
  (Hab : a <> b)
  (Hnone : existsb (fun c => connects c a b) (connections cs) = false) :
  addConnection f2 b a (addConnection f1 a b cs)
  = mkConnectionsState (connections cs ++ [mkConnection f1 a b]) false None.
Proof.
  unfold addConnection at 2. apply String.eqb_neq in Hab. rewrite Hab, Hnone.
  unfold addConnection. rewrite String.eqb_sym, Hab. simpl.
  rewrite existsb_app. simpl. unfold connects at 2. simpl.
  rewrite !String.eqb_refl. rewrite Bool.orb_true_r. simpl.
  rewrite Bool.orb_true_r. reflexivity.
Qed.

Lemma X2_add_both_directions_once_witness :
  "a" <> "b" /\
  existsb (fun c => connects c "a" "b") (connections (mkConnectionsState [] true (Some "a"))) = false /\
  addConnection "c2" "b" "a" (addConnection "c1" "a" "b" (mkConnectionsState [] true (Some "a")))
  = mkConnectionsState (connections (mkConnectionsState [] true (Some "a")) ++ [mkConnection "c1" "a" "b"]) false None.
Proof.
  split; [discriminate|]. split; [reflexivity|].
  apply X2_add_both_directions_once; [discriminate|reflexivity].
Defined.

(** ** Blocks store *)

Lemma sizes_ok_map (f : Block -> Block) (st : BlocksState) (sel : IdSet) :
  sizes_ok st ->
  (forall b, 50 <= width (size b) -> 50 <= height (size b) ->
             50 <= width (size (f b)) /\ 50 <= height (size (f b))) ->
  sizes_ok (mkBlocksState (map f (blocks st)) sel).
Proof.
  intros H Hf b Hb. simpl in Hb. apply in_map_iff in Hb as [b0 [<- Hb0]].
  destruct (H b0 Hb0). apply Hf; assumption.
Qed.

Lemma sizes_ok_addBlock (nb : Block) (st : BlocksState) :
  sizes_ok st -> 50 <= width (size nb) -> 50 <= height (size nb) ->
  sizes_ok (addBlock nb st).
Proof.
  intros H Hw Hh b Hb. simpl in Hb. apply in_app_or in Hb as [Hb|[<-|[]]].
  - exact (H b Hb).
  - split; assumption.
Qed.

Lemma createImageBlock_min (bid : string) (x y : Q) (u : string) (w h : Q) :
  50 <= width (size (createImageBlock bid x y u w h)) /\
  50 <= height (size (createImageBlock bid x y u w h)).
Proof. split; apply Q.le_max_r. Qed.

Lemma createTextBlock_min (bid : string) (x y : Q) (t : string) :
  50 <= width (size (createTextBlock bid x y t)) /\
  50 <= height (size (createTextBlock bid x y t)).
Proof. split; vm_compute; discriminate. Qed.

Lemma sizes_ok_moveBlock (bid : string) (x y : Q) (st : BlocksState) :
  sizes_ok st -> sizes_ok (moveBlock bid x y st).
Proof.
  intros H. apply sizes_ok_map; [exact H|].
  intros b Hw Hh. destruct (String.eqb (id b) bid); split; assumption.
Qed.

Lemma sizes_ok_resizeBlock (bid : string) (w h : Q) (st : BlocksState) :
  sizes_ok st -> sizes_ok (resizeBlock bid w h st).
Proof.
  intros H. apply sizes_ok_map; [exact H|].
  intros b Hw Hh. destruct (String.eqb (id b) bid); [|split; assumption].
  split; apply Q.le_max_l.
Qed.

Lemma sizes_ok_selectBlock (bid : string) (m : bool) (st : BlocksState) :
  sizes_ok st -> sizes_ok (selectBlock bid m st).
Proof. intros H. apply sizes_ok_map; [exact H|]. intros b Hw Hh. split; assumption. Qed.

Lemma sizes_ok_apply (op : StoreOp) (st : BlocksState) :
  sizes_ok st -> sizes_ok (apply_op op st).
Proof.
  intros H. destruct op; simpl.
  - apply sizes_ok_addBlock; [exact H| |]; apply createTextBlock_min.
  - apply sizes_ok_addBlock; [exact H| |]; apply createImageBlock_min.
  - apply sizes_ok_selectBlock. exact H.
  - apply sizes_ok_map; [exact H|]. intros b Hw Hh. split; assumption.
  - intros b Hb. apply filter_In in Hb as [Hb _]. exact (H b Hb).
  - apply sizes_ok_moveBlock. exact H.
  - apply sizes_ok_resizeBlock. exact H.
Qed.

(** X3: no block of the store is ever smaller than 50 x 50: starting from
    such a store (the empty initial store is one), every sequence of
    [addBlock] of a helper-built block, [selectBlock], [deselectAll],
    [deleteBlock], [moveBlock] and [resizeBlock], as well as a paste that
    leaves finite numbers ([handlePaste] of text, or of an image whose
    natural width is not 0) and a double-click on the canvas, keeps every
    block at least 50 wide and 50 high, whatever the sizes passed in. *)
Theorem X3_min_size_invariant (ops : list StoreOp) (st : BlocksState)
  (H : sizes_ok st) :
  sizes_ok (run_ops ops st) /\
  (forall bid url center clip st', handlePaste bid url center clip st = Pasted st' ->
     sizes_ok st') /\
  (forall bid w, sizes_ok (canvas_dblclick bid w st)).
Proof.
  split; [|split].
  - revert st H. induction ops as [|op ops IH]; intros st H; simpl; [exact H|].
    apply IH, sizes_ok_apply, H.
  - intros bid url center clip st' E. unfold handlePaste in E.
    destruct (image_item clip) as [[|[[iw ih]|]]|];
      try (injection E as <-; exact H).
    + destruct (N.eqb iw 0); [discriminate|]. injection E as <-.
      apply sizes_ok_addBlock; [exact H| |]; apply createImageBlock_min.
    + destruct (String.eqb (text_data clip) ""); injection E as <-; [exact H|].
      apply sizes_ok_addBlock; [exact H| |]; apply createTextBlock_min.
  - intros bid w. apply sizes_ok_addBlock; [exact H| |]; apply createTextBlock_min.
Qed.

Lemma X3_min_size_invariant_witness :
  sizes_ok emptyBlocksState /\
  sizes_ok (run_ops [OpAddImage "i" 0 0 "u" (-5) 0; OpResize "i" 3 (-7)] emptyBlocksState) /\
  (forall bid url center clip st', handlePaste bid url center clip emptyBlocksState = Pasted st' ->
     sizes_ok st') /\
  (forall bid w, sizes_ok (canvas_dblclick bid w emptyBlocksState)).
Proof.
  assert (H0 : sizes_ok emptyBlocksState) by (intros b []).
  split; [exact H0|]. apply X3_min_size_invariant. exact H0.
Defined.

(** X4: the drag and resize handlers keep the same floor: pointer-down on a
    block or on a resize handle, a drag move and a resize move all leave
    every block of the store at least 50 x 50. *)
Theorem X4_gestures_keep_min_size (g : Gesture) (H : sizes_ok (store g)) :
  (forall m w, sizes_ok (store (block_pointerdown_plain m w g))) /\
  (forall k w, sizes_ok (store (handle_pointerdown k w g))) /\
  (forall w, sizes_ok (store (handlePointerMove w g))) /\
  (forall w, sizes_ok (store (handleResizeMove w g))).
Proof.
  destruct g as [c st]. simpl in H. split; [|split; [|split]].
  - intros m w. apply sizes_ok_selectBlock. exact H.
  - intros k w. exact H.
  - intros w. unfold handlePointerMove. simpl.
    destruct (_ && _ && _); [|exact H]. simpl.
    match goal with |- sizes_ok (if ?x then _ else _) => destruct x end;
      [apply sizes_ok_moveBlock|]; exact H.
  - intros w. unfold handleResizeMove. simpl.
    destruct (_ && _); [|exact H].
    destruct (resize_geometry _ _ _ _) as [[[nw nh] nx] ny]. cbn [store].
    apply sizes_ok_resizeBlock.
    match goal with |- sizes_ok (if ?x then _ else _) => destruct x end;
      [apply sizes_ok_moveBlock|]; exact H.
Qed.

Lemma X4_gestures_keep_min_size_witness :
  let b := mkBlock "r" TImage (ImageContent "u" (mkSize 100 100)) (mkPoint 0 0)
             (mkSize 100 100) true false true in
  let g := mkGesture (init_closure b) (mkBlocksState [b] ["r"]) in
  sizes_ok (store g) /\
  (forall m w, sizes_ok (store (block_pointerdown_plain m w g))) /\
  (forall k w, sizes_ok (store (handle_pointerdown k w g))) /\
  (forall w, sizes_ok (store (handlePointerMove w g))) /\
  (forall w, sizes_ok (store (handleResizeMove w g))).
Proof.
  intros b g.
  assert (H : sizes_ok (store g)).
  { intros x [<-|[]]. split; vm_compute; discriminate. }
  split; [exact H|]. apply X4_gestures_keep_min_size. exact H.
Defined.

Lemma filter_filter_same {A} (p : A -> bool) (l : list A) :
  filter p (filter p l) = filter p l.
Proof.
  induction l as [|a l IH]; simpl; [reflexivity|].
  destruct (p a) eqn:E; simpl; [rewrite E, IH|rewrite IH]; reflexivity.
Qed.

Lemma filter_all_true {A} (p : A -> bool) (l : list A) :
  (forall a, In a l -> p a = true) -> filter p l = l.
Proof.
  induction l as [|a l IH]; simpl; intros H; [reflexivity|].
  rewrite (H a (or_introl eq_refl)), IH; [reflexivity|]. intros x Hx. apply H. right. exact Hx.
Qed.

(** X5: [deleteBlock] is idempotent, and deleting an id that no block has
    and that is not selected leaves the store unchanged. *)
Theorem X5_deleteBlock_idempotent (bid : string) (st : BlocksState) :
  deleteBlock bid (deleteBlock bid st) = deleteBlock bid st /\
  (find_block (blocks st) bid = None -> set_has (selectedBlockIds st) bid = false ->
   deleteBlock bid st = st).
Proof.
  split.
  - unfold deleteBlock. simpl. rewrite !filter_filter_same. reflexivity.
  - intros Hb Hs. destruct st as [bs sel]. unfold deleteBlock. simpl in *.
    f_equal; apply filter_all_true; intros a Ha; apply negb_true_iff, String.eqb_neq.
    + intros E. subst bid.
      destruct (find_block bs (id a)) eqn:F; [discriminate|].
      unfold find_block in F. apply (find_none _ _ F) in Ha.
      rewrite String.eqb_refl in Ha. discriminate.
    + intros E. subst a. unfold set_has in Hs.
      assert (existsb (String.eqb bid) sel = true) as T
        by (apply existsb_exists; exists bid; split; [exact Ha|apply String.eqb_refl]).
      congruence.
Qed.

Lemma X5_deleteBlock_idempotent_witness :
  let st := mkBlocksState [createTextBlock "b1" 0 0 "x"] ["b1"] in
  find_block (blocks st) "zz" = None /\ set_has (selectedBlockIds st) "zz" = false /\
  (deleteBlock "zz" (deleteBlock "zz" st) = deleteBlock "zz" st /\
   (find_block (blocks st) "zz" = None -> set_has (selectedBlockIds st) "zz" = false ->
    deleteBlock "zz" st = st)).
Proof.
  intros st. split; [reflexivity|]. split; [reflexivity|].
  apply X5_deleteBlock_idempotent.
Defined.

Lemma set_has_add (s : IdSet) (x y : string) :
  set_has (set_add s x) y = set_has s y || String.eqb y x.
Proof.
  unfold set_add. destruct (set_has s x) eqn:E.
  - destruct (String.eqb y x) eqn:Eyx; [|rewrite Bool.orb_false_r; reflexivity].
    apply String.eqb_eq in Eyx. subst. rewrite E. reflexivity.
  - unfold set_has. rewrite existsb_app. simpl. rewrite Bool.orb_false_r.
    rewrite String.eqb_sym. reflexivity.
Qed.

(** X6: [selectBlock(id, false)] makes [{id}] the selection and flags
    exactly the blocks with that id; [selectBlock(id, true)] flips the
    membership of [id] and keeps the membership of every other id. *)
Theorem X6_selectBlock_semantics (bid : string) (st : BlocksState) :
  (forall x, set_has (selectedBlockIds (selectBlock bid false st)) x = String.eqb x bid) /\
  (forall b, In b (blocks (selectBlock bid false st)) -> selected b = String.eqb (id b) bid) /\
  set_has (selectedBlockIds (selectBlock bid true st)) bid
    = negb (set_has (selectedBlockIds st) bid) /\
  (forall x, x <> bid ->
     set_has (selectedBlockIds (selectBlock bid true st)) x = set_has (selectedBlockIds st) x).
Proof.
  split; [|split; [|split]].
  - intros x. simpl. unfold set_add. simpl. rewrite Bool.orb_false_r.
    rewrite String.eqb_sym. reflexivity.
  - intros b Hb. simpl in Hb. apply in_map_iff in Hb as [b0 [<- _]]. simpl.
    unfold set_add. simpl. rewrite Bool.orb_false_r. rewrite String.eqb_sym. reflexivity.
  - simpl. destruct (set_has (selectedBlockIds st) bid) eqn:E; simpl.
    + apply set_has_filter_neq.
    + rewrite set_has_add, E, String.eqb_refl. reflexivity.
  - intros x Hx. simpl. destruct (set_has (selectedBlockIds st) bid); simpl.
    + apply set_has_filter_other. exact Hx.
    + rewrite set_has_add. apply String.eqb_neq in Hx. rewrite Hx, Bool.orb_false_r.
      reflexivity.
Qed.

Lemma filter_filter {A} (p q : A -> bool) (l : list A) :
  filter p (filter q l) = filter (fun x => q x && p x) l.
Proof.
  induction l as [|a l IH]; simpl; [reflexivity|].
  destruct (q a); simpl; [destruct (p a)|]; simpl; rewrite IH; reflexivity.
Qed.

Lemma delete_fold (l : list string) (st : BlocksState) :
  fold_left (fun acc x => deleteBlock x acc) l st
  = mkBlocksState
      (filter (fun b => negb (existsb (String.eqb (id b)) l)) (blocks st))
      (filter (fun x => negb (existsb (String.eqb x) l)) (selectedBlockIds st)).
Proof.
  revert st. induction l as [|y l IH]; intros st; simpl.
  - destruct st as [bs sel]. simpl. f_equal; symmetry; apply filter_all_true; reflexivity.
  - rewrite IH. simpl. f_equal.
    + rewrite filter_filter. apply filter_ext. intros b.
      destruct (String.eqb (id b) y), (existsb _ l); reflexivity.
    + rewrite filter_filter. apply filter_ext. intros x.
      destruct (String.eqb x y), (existsb _ l); reflexivity.
Qed.

(** X7: the Delete/Backspace key handler deletes every selected block and
    nothing else: afterwards the selection set is empty, no remaining
    block has a selected id, and every block whose id was not selected is
    kept. *)
Theorem X7_delete_key_removes_selected (st : BlocksState) :
  selectedBlockIds (delete_selected st) = [] /\
  (forall b, In b (blocks (delete_selected st)) ->
             set_has (selectedBlockIds st) (id b) = false) /\
  (forall b, In b (blocks st) -> set_has (selectedBlockIds st) (id b) = false ->
             In b (blocks (delete_selected st))).
Proof.
  unfold delete_selected. rewrite delete_fold. simpl. split; [|split].
  - remember (selectedBlockIds st) as s eqn:Es. clear Es.
    assert (G : forall l, (forall x, In x l -> existsb (String.eqb x) s = true) ->
                filter (fun x => negb (existsb (String.eqb x) s)) l = []).
    { induction l as [|a l IH]; intros Hl; simpl; [reflexivity|].
      rewrite (Hl a (or_introl eq_refl)). simpl. apply IH. intros x Hx. apply Hl. right. exact Hx. }
    apply G. intros x Hx. apply existsb_exists. exists x. split; [exact Hx|apply String.eqb_refl].
  - intros b Hb. apply filter_In in Hb as [_ Hb]. apply negb_true_iff in Hb. exact Hb.
  - intros b Hb Hs. apply filter_In. split; [exact Hb|]. unfold set_has in Hs. rewrite Hs. reflexivity.
Qed.

(** X8: a double-click on empty canvas at world point [w] appends one
    "New Note" text block of size 200 x 100 centered on [w], unselected,
    and leaves the other blocks and the selection set as they were. *)
Theorem X8_dblclick_creates_centered_note (bid : string) (w : Point) (st : BlocksState) :
  exists nb,
    canvas_dblclick bid w st = mkBlocksState (blocks st ++ [nb]) (selectedBlockIds st) /\
    content nb = TextContent "New Note" 16 "#ffffff" /\
    type nb = TText /\ selected nb = false /\
    width (size nb) == 200 /\ height (size nb) == 100 /\
    px (position nb) + width (size nb) / 2 == px w /\
    py (position nb) + height (size nb) / 2 == py w.
Proof.
  eexists. split; [reflexivity|]. split; [reflexivity|].
  split; [reflexivity|]. split; [reflexivity|].
  assert (Hw : Qmax 200 100 == 200) by reflexivity.
  assert (Hh : Qmax 100 50 == 100) by reflexivity.
  cbn [size position width height px py createTextBlock].
  rewrite Hw, Hh.
  refine (conj _ (conj _ (conj _ _))); [reflexivity|reflexivity|field|field].
Qed.




(** X10: the bezier of a drawn connection runs between the two block
    centers with a horizontal control offset between 0 and 100 that never
    exceeds half the horizontal distance of the centers, and the offset is
    the same when the two endpoints are swapped. *)
Theorem X10_connection_curve_offset (fb tb : Block) :
  let cv := connection_curve fb tb in
  0 <= controlOffset cv /\ controlOffset cv <= 100 /\
  controlOffset cv <= Qabs (px (end_pt cv) - px (start_pt cv)) * (1 # 2) /\
  controlOffset (connection_curve tb fb) == controlOffset cv.
Proof.
  unfold connection_curve. cbn [controlOffset start_pt end_pt px py].
  split; [|split; [|split]].
  - apply Q.min_glb; [|discriminate].
    apply (Qmult_le_0_compat); [apply Qabs_nonneg|discriminate].
  - apply Q.le_min_r.
  - apply Q.le_min_l.
  - rewrite Qabs_Qminus. reflexivity.
Qed.

Lemma Qmax_r_eq (x y : Q) : x <= y -> Qmax x y == y.
Proof. apply Q.max_r. Qed.

Lemma resize_store (b : Block) (st : BlocksState) (k : Corner) (W1 W2 : Point)
  (Hf : find_block (blocks st) (id b) = Some b) :
  let g := handleResizeMove W2 (handle_pointerdown k W1 (mkGesture (init_closure b) st)) in
  let '(nw, nh, nx, ny) :=
    resize_geometry k b (mkSize (width (size b)) (height (size b)), W1) W2 in
  exists b', find_block (blocks (store g)) (id b) = Some b' /\
    px (position b') == nx /\ py (position b') == ny /\
    width (size b') == Qmax 50 nw /\ height (size b') == Qmax 50 nh.
Proof.
  unfold handleResizeMove, handle_pointerdown.
  cbn [cl set_cl store cblock init_closure resizeAttached isResizing corner resizeStart andb].
  destruct (resize_geometry k b _ W2) as [[[nw nh] nx] ny].
  destruct (negb (Qeq_bool nx (px (position b))) || negb (Qeq_bool ny (py (position b))))
    eqn:C.
  - eexists. split.
    { apply find_block_resizeBlock. apply find_block_moveBlock. exact Hf. }
    cbn. repeat split; reflexivity.
  - apply orb_false_iff in C as [Cx Cy].
    apply negb_false_iff, Qeq_bool_iff in Cx. apply negb_false_iff, Qeq_bool_iff in Cy.
    eexists. split.
    { apply find_block_resizeBlock. exact Hf. }
    cbn. split; [symmetry; exact Cx|]. split; [symmetry; exact Cy|].
    split; reflexivity.
Qed.

Lemma resize_first_move (b : Block) (st : BlocksState) (k : Corner)
  (W1 W2 : Point) (Hf : find_block (blocks st) (id b) = Some b)
  (Hw : 50 <= fst (unclamped_size k (size b) (px W2 - px W1) (py W2 - py W1)))
  (Hh : 50 <= snd (unclamped_size k (size b) (px W2 - px W1) (py W2 - py W1))) :
  let g := handleResizeMove W2 (handle_pointerdown k W1 (mkGesture (init_closure b) st)) in
  exists b', find_block (blocks (store g)) (id b) = Some b' /\
    peq (anchor_corner k (position b') (size b')) (anchor_corner k (position b) (size b)) /\
    peq (handle_corner k (position b') (size b'))
        (mkPoint (px (handle_corner k (position b) (size b)) + (px W2 - px W1))
                 (py (handle_corner k (position b) (size b)) + (py W2 - py W1))) /\
    width (size b') == fst (unclamped_size k (size b) (px W2 - px W1) (py W2 - py W1)) /\
    height (size b') == snd (unclamped_size k (size b) (px W2 - px W1) (py W2 - py W1)).
Proof.
  pose proof (resize_store b st k W1 W2 Hf) as R. cbv zeta in R.
  destruct k; cbn [resize_geometry px py width height] in R;
    destruct R as [b' [F [Ex [Ey [Ew Eh]]]]]; exists b'; split; try exact F;
    cbn [unclamped_size fst snd] in Hw, Hh |- *;
    pose proof (Qmax_r_eq _ _ Hw) as Mw; pose proof (Qmax_r_eq _ _ Hh) as Mh;
    match type of Hw with _ <= ?x =>
      pose proof (Qmax_r_eq _ _ (Q.le_max_l 50 x)) as Mw' end;
    match type of Hh with _ <= ?x =>
      pose proof (Qmax_r_eq _ _ (Q.le_max_l 50 x)) as Mh' end;
    unfold peq, anchor_corner, handle_corner; cbn [px py];
    refine (conj (conj _ _) (conj (conj _ _) (conj _ _))); lra.
Qed.

(** X11: on the first resize move after any of the four resize handles is
    pressed, as long as the size asked for stays at or above 50 (no
    clamp), the corner opposite the handle stays where it was and the
    grabbed corner moves by exactly [W2 - W1]. *)
Theorem X11_resize_keeps_opposite_corner (b : Block) (st : BlocksState) (k : Corner)
  (W1 W2 : Point) (Hf : find_block (blocks st) (id b) = Some b)
  (Hw : 50 <= fst (unclamped_size k (size b) (px W2 - px W1) (py W2 - py W1)))
  (Hh : 50 <= snd (unclamped_size k (size b) (px W2 - px W1) (py W2 - py W1))) :
  let g := handleResizeMove W2 (handle_pointerdown k W1 (mkGesture (init_closure b) st)) in
  exists b', find_block (blocks (store g)) (id b) = Some b' /\
    peq (anchor_corner k (position b') (size b')) (anchor_corner k (position b) (size b)) /\
    peq (handle_corner k (position b') (size b'))
        (mkPoint (px (handle_corner k (position b) (size b)) + (px W2 - px W1))
                 (py (handle_corner k (position b) (size b)) + (py W2 - py W1))).
Proof.
  destruct (resize_first_move b st k W1 W2 Hf Hw Hh) as [b' [F [A [C _]]]].
  exists b'. split; [exact F|split; assumption].
Qed.

Lemma X11_resize_keeps_opposite_corner_witness :
  let b := mkBlock "r" TImage (ImageContent "u" (mkSize 100 100)) (mkPoint 0 0)
             (mkSize 100 100) true false true in
  let st := mkBlocksState [b] ["r"] in
  find_block (blocks st) (id b) = Some b /\
  50 <= fst (unclamped_size TR (size b) (px (mkPoint 30 (-20)) - px (mkPoint 0 0))
                                     (py (mkPoint 30 (-20)) - py (mkPoint 0 0))) /\
  50 <= snd (unclamped_size TR (size b) (px (mkPoint 30 (-20)) - px (mkPoint 0 0))
                                     (py (mkPoint 30 (-20)) - py (mkPoint 0 0))) /\
  let g := handleResizeMove (mkPoint 30 (-20))
             (handle_pointerdown TR (mkPoint 0 0) (mkGesture (init_closure b) st)) in
  exists b', find_block (blocks (store g)) (id b) = Some b' /\
    peq (anchor_corner TR (position b') (size b')) (anchor_corner TR (position b) (size b)) /\
    peq (handle_corner TR (position b') (size b'))
        (mkPoint (px (handle_corner TR (position b) (size b)) + (px (mkPoint 30 (-20)) - px (mkPoint 0 0)))
                 (py (handle_corner TR (position b) (size b)) + (py (mkPoint 30 (-20)) - py (mkPoint 0 0)))).
Proof.
  intros b st. split; [reflexivity|]. split; [vm_compute; discriminate|].
  split; [vm_compute; discriminate|].
  apply X11_resize_keeps_opposite_corner;
    [reflexivity|vm_compute; discriminate|vm_compute; discriminate].
Defined.

Lemma run_moves_no_cross (ws : list Point) (c : Closure) (st : BlocksState) :
  isDragging c = true -> isResizing c = false -> moveAttached c = true ->
  dragging c = false -> existsb (crossed c) ws = false ->
  run_moves ws (mkGesture c st) = mkGesture c st.
Proof.
  intros H1 H2 H3 H4. induction ws as [|w ws IH]; intros Hx; [reflexivity|].
  cbn [existsb] in Hx. apply orb_false_iff in Hx. destruct Hx as [Hw Hws].
  unfold run_moves. cbn [fold_left]. rewrite (move_step c st w H1 H2 H3).
  rewrite Hw, H4. cbn [orb].
  replace (with_dragging c false) with c by (destruct c; cbn in H4; subst; reflexivity).
  apply IH. exact Hws.
Qed.

Lemma Qltb_5_false (x : Q) : Qabs x <= 5 -> Qltb 5 (Qabs x) = false.
Proof.
  intros H. unfold Qltb. apply Qle_bool_iff in H. rewrite H. reflexivity.
Qed.

(** X12: a press on a block followed by pointer moves that all stay within
    5 units (on each axis) of the press point never starts a drag: the
    store is the one left by the selection of the pointer-down, no block
    moves, and the closure still records "not dragged", so the release is
    treated as a click. *)
Theorem X12_small_moves_do_not_drag (b : Block) (st : BlocksState) (multi : bool)
  (w0 : Point) (ws : list Point)
  (Hsmall : Forall (fun w => Qabs (px w - px w0) <= 5 /\ Qabs (py w - py w0) <= 5) ws) :
  let g := run_moves ws (block_pointerdown_plain multi w0 (mkGesture (init_closure b) st)) in
  store g = selectBlock (id b) multi st /\ dragging (cl g) = false.
Proof.
  cbv zeta. unfold block_pointerdown_plain. cbn [cl store init_closure cblock].
  rewrite run_moves_no_cross; cbn; try reflexivity; [split; reflexivity|].
  induction Hsmall as [|w ws [Hx Hy] _ IH]; [reflexivity|].
  cbn [existsb]. rewrite IH, orb_false_r. unfold crossed. cbn [px py dragStart cblock].
  assert (Ex : px w - (px w0 - px (position b)) - px (position b) == px w - px w0) by ring.
  assert (Ey : py w - (py w0 - py (position b)) - py (position b) == py w - py w0) by ring.
  assert (Hx' : Qabs (px w - (px w0 - px (position b)) - px (position b)) <= 5)
    by (rewrite Ex; exact Hx).
  assert (Hy' : Qabs (py w - (py w0 - py (position b)) - py (position b)) <= 5)
    by (rewrite Ey; exact Hy).
  rewrite (Qltb_5_false _ Hx'), (Qltb_5_false _ Hy'). reflexivity.
Qed.

Lemma X12_small_moves_do_not_drag_witness :
  let b := mkBlock "t" TText (TextContent "hi" 16 "#ffffff") (mkPoint 10 10)
             (mkSize 200 100) false false true in
  let st := mkBlocksState [b] [] in
  let ws := [mkPoint 13 12; mkPoint 8 15; mkPoint 15 5] in
  Forall (fun w => Qabs (px w - px (mkPoint 10 10)) <= 5 /\
                   Qabs (py w - py (mkPoint 10 10)) <= 5) ws /\
  let g := run_moves ws (block_pointerdown_plain false (mkPoint 10 10)
                           (mkGesture (init_closure b) st)) in
  store g = selectBlock (id b) false st /\ dragging (cl g) = false.
Proof.
  intros b st ws.
  assert (HF : Forall (fun w => Qabs (px w - px (mkPoint 10 10)) <= 5 /\
                                Qabs (py w - py (mkPoint 10 10)) <= 5) ws).
  { repeat constructor; vm_compute; discriminate. }
  split; [exact HF|]. exact (X12_small_moves_do_not_drag b st false (mkPoint 10 10) ws HF).
Defined.

Lemma updateBlockContent_twice (bid : string) (c1 c2 : Content) (st : BlocksState) :
  updateBlockContent bid c2 (updateBlockContent bid c1 st) = updateBlockContent bid c2 st.
Proof.
  unfold updateBlockContent. cbn [blocks selectedBlockIds]. f_equal.
  rewrite map_map. apply map_ext. intros x.
  destruct (String.eqb (id x) bid) eqn:E; cbn [with_content id]; rewrite ?E; reflexivity.
Qed.

Lemma last_cons_default (v t : string) (vs : list string) :
  last (v :: vs) t = last vs v.
Proof.
  revert v t. induction vs as [|u vs IH]; intros v t; [reflexivity|].
  change (last (v :: u :: vs) t) with (last (u :: vs) t).
  rewrite (IH u t), (IH u v). reflexivity.
Qed.

Lemma edit_inputs (b : Block) (vs : list string) (s : BlocksState) (t : string) :
  edit_run (map EvInput vs) (mkEditSession s b t true)
  = mkEditSession
      (match vs with
       | [] => s
       | _ => updateBlockContent (id b) (set_text (content b) (or_space (last vs t))) s
       end) b (last vs t) true.
Proof.
  revert s t. induction vs as [|v vs IH]; intros s t; [reflexivity|].
  unfold edit_run. cbn [map fold_left]. fold (edit_run (map EvInput vs)).
  cbn [edit_step es_active es_store es_block]. unfold write_back. cbn [es_store es_block textarea].
  rewrite IH, last_cons_default. destruct vs as [|u vs]; [reflexivity|].
  rewrite updateBlockContent_twice. reflexivity.
Qed.

Lemma edit_run_inactive (evs : list EditEvent) (e : EditSession) :
  es_active e = false -> edit_run evs e = e.
Proof.
  intros H. revert e H. induction evs as [|ev evs IH]; intros e H; [reflexivity|].
  unfold edit_run. cbn [fold_left]. unfold edit_step at 2. rewrite H. apply IH. exact H.
Qed.

(** X13: in an edit session on a block, any number of [input] events
    followed by Enter or blur ends the session and leaves the store with
    exactly one change from the starting store: the block's text is the
    last value typed (its original text when nothing was typed), or a
    single space when that value is empty. Events after the end do nothing. *)
Theorem X13_edit_commit_last_value (b : Block) (st : BlocksState) (vs : list string)
  (ev : EditEvent) (rest : list EditEvent) (Hev : ev = EvEnter \/ ev = EvBlur) :
  let e := edit_run (map EvInput vs ++ ev :: rest) (start_edit b st) in
  es_active e = false /\
  es_store e = updateBlockContent (id b)
                 (set_text (content b) (or_space (last vs (content_text (content b))))) st.
Proof.
  cbv zeta. unfold edit_run. rewrite fold_left_app. fold (edit_run (map EvInput vs)).
  unfold start_edit. rewrite edit_inputs. cbn [fold_left].
  fold (edit_run rest).
  assert (Hs : forall x, x = EvEnter \/ x = EvBlur ->
    edit_step x (mkEditSession
      (match vs with
       | [] => st
       | _ => updateBlockContent (id b) (set_text (content b)
                (or_space (last vs (content_text (content b))))) st
       end) b (last vs (content_text (content b))) true)
    = mkEditSession (updateBlockContent (id b) (set_text (content b)
                (or_space (last vs (content_text (content b))))) st)
        b (last vs (content_text (content b))) false).
  { intros x Hx. assert (Hw : forall s,
      edit_step x (mkEditSession s b (last vs (content_text (content b))) true)
      = mkEditSession (updateBlockContent (id b) (set_text (content b)
          (or_space (last vs (content_text (content b))))) s)
          b (last vs (content_text (content b))) false)
      by (intros s; destruct Hx; subst x; reflexivity).
    rewrite Hw. destruct vs; [reflexivity|]. rewrite updateBlockContent_twice. reflexivity. }
  rewrite (Hs ev Hev), edit_run_inactive by reflexivity. split; reflexivity.
Qed.

Lemma X13_edit_commit_last_value_witness :
  let b := mkBlock "t" TText (TextContent "old" 16 "#ffffff") (mkPoint 0 0)
             (mkSize 200 100) false false true in
  let st := mkBlocksState [b] [] in
  (EvEnter = EvEnter \/ EvEnter = EvBlur) /\
  let e := edit_run (map EvInput ["n"; "ne"; ""] ++ EvEnter :: [EvEscape]) (start_edit b st) in
  es_active e = false /\
  es_store e = updateBlockContent (id b)
                 (set_text (content b) (or_space (last ["n"; "ne"; ""] (content_text (content b))))) st.
Proof.
  intros b st. split; [left; reflexivity|].
  apply X13_edit_commit_last_value. left; reflexivity.
Defined.

Lemma run_moves_detached (ws : list Point) (g : Gesture) :
  moveAttached (cl g) = false -> run_moves ws g = g.
Proof.
  intros H. revert g H. induction ws as [|w ws IH]; intros g H; [reflexivity|].
  unfold run_moves. cbn [fold_left]. rewrite (move_detached w g H). apply IH. exact H.
Qed.

(** X14: the listeners are removed when a gesture ends: once a drag is
    released ([handlePointerUp]) no later pointer move changes the store or
    the closure, and once a resize ends ([handleResizeEnd]) no later resize
    move does. *)
Theorem X14_ended_gestures_ignore_moves (now : Z) (g : Gesture) (ws : list Point) (w : Point)
  (Hup : upAttached (cl g) = true) (Hd : isDragging (cl g) = true) :
  run_moves ws (handlePointerUp now g) = handlePointerUp now g /\
  handleResizeMove w (handleResizeEnd g) = handleResizeEnd g.
Proof.
  split.
  - apply run_moves_detached. apply (pointer_up_detaches now g Hup Hd).
  - destruct g as [c st]. unfold handleResizeEnd, handleResizeMove. cbn [cl].
    destruct (resizeAttached c) eqn:E; cbn [set_cl cl resizeAttached]; rewrite ?E;
      reflexivity.
Qed.

Lemma X14_ended_gestures_ignore_moves_witness :
  let b := mkBlock "t" TText (TextContent "hi" 16 "#ffffff") (mkPoint 0 0)
             (mkSize 200 100) false false true in
  let g := block_pointerdown_plain false (mkPoint 5 5)
             (mkGesture (init_closure b) (mkBlocksState [b] [])) in
  upAttached (cl g) = true /\ isDragging (cl g) = true /\
  run_moves [mkPoint 100 100] (handlePointerUp 1000 g) = handlePointerUp 1000 g /\
  handleResizeMove (mkPoint 9 9) (handleResizeEnd g) = handleResizeEnd g.
Proof.
  intros b g. split; [reflexivity|]. split; [reflexivity|].
  apply X14_ended_gestures_ignore_moves; reflexivity.
Defined.


Lemma find_block_some_in (bs : list Block) (x : string) (b : Block) :
  find_block bs x = Some b -> In b bs /\ id b = x.
Proof.
  unfold find_block. intros E. split.
  - exact (proj1 (find_some _ _ E)).
  - apply String.eqb_eq. exact (proj2 (find_some _ _ E)).
Qed.



Lemma click_inv_init (b : Block) : click_inv (init_closure b).
Proof. split; reflexivity. Qed.

Lemma click_inv_pointerdown (m : bool) (w : Point) (g : Gesture) :
  click_inv (cl g) -> click_inv (cl (block_pointerdown_plain m w g)).
Proof. destruct g as [[] st]. exact (fun H => H). Qed.

Lemma click_inv_handle_down (k : Corner) (w : Point) (g : Gesture) :
  click_inv (cl g) -> click_inv (cl (handle_pointerdown k w g)).
Proof. destruct g as [[] st]. exact (fun H => H). Qed.

Lemma click_inv_move (w : Point) (g : Gesture) :
  click_inv (cl g) -> click_inv (cl (handlePointerMove w g)).
Proof.
  destruct g as [c st]. unfold handlePointerMove. cbn [cl store].
  destruct (_ && _ && _); [|exact (fun H => H)].
  destruct c; exact (fun H => H).
Qed.

Lemma click_inv_resize_move (w : Point) (g : Gesture) :
  click_inv (cl g) -> click_inv (cl (handleResizeMove w g)).
Proof.
  destruct g as [c st]. unfold handleResizeMove. cbn [cl store].
  destruct (_ && _); [|exact (fun H => H)].
  destruct (resize_geometry _ _ _ _) as [[[? ?] ?] ?]. exact (fun H => H).
Qed.

Lemma click_inv_resize_end (g : Gesture) :
  click_inv (cl g) -> click_inv (cl (handleResizeEnd g)).
Proof.
  destruct g as [c st]. unfold handleResizeEnd. cbn [cl].
  destruct (resizeAttached c); [destruct c|]; exact (fun H => H).
Qed.

(** The only place [editing] is set is the double-click branch of
    [handlePointerUp]; with [lastClickTime = 0] and [now >= 300] it is
    never taken. *)
Lemma click_inv_up (now : Z) (g : Gesture) :
  (300 <= now)%Z -> click_inv (cl g) -> click_inv (cl (handlePointerUp now g)).
Proof.
  intros Hn H. destruct g as [c st]. unfold handlePointerUp. cbn [cl store] in *.
  unfold click_inv in *. destruct H as [He Hl].
  destruct (upAttached c) eqn:Eu; cbn [andb cl];
    [|split; [exact He|rewrite Eu; exact Hl]].
  specialize (Hl eq_refl).
  destruct (isDragging c || isResizing c); cbn [cl];
    [|split; [exact He|rewrite Eu; intros _; exact Hl]].
  destruct (negb (dragging c) && negb (isResizing c) && _).
  - rewrite Hl. replace ((now - 0 <? doubleClickSpeed)%Z) with false
      by (symmetry; apply Z.ltb_ge; unfold doubleClickSpeed; lia).
    split; [exact He|discriminate].
  - split; [exact He|discriminate].
Qed.

Lemma Forall_set_nth {A : Type} (P : A -> Prop) (l : list A) (i : nat) (x : A) :
  Forall P l -> P x -> Forall P (set_nth l i x).
Proof.
  intros Hl Hx. revert i. induction Hl as [|y l Hy Hl IH]; intros i; [destruct i; constructor|].
  destruct i as [|j]; cbn [set_nth]; constructor; auto.
Qed.

Lemma click_inv_on_closure (i : nat) (f : Gesture -> Gesture) (wd : World) :
  (forall g, click_inv (cl g) -> click_inv (cl (f g))) ->
  Forall click_inv (closures wd) -> Forall click_inv (closures (on_closure i f wd)).
Proof.
  intros Hf Hw. unfold on_closure.
  destruct (nth_error (closures wd) i) as [c|] eqn:E; [|exact Hw].
  cbn [closures]. apply Forall_set_nth; [exact Hw|].
  apply Hf. cbn [cl]. rewrite Forall_forall in Hw. apply Hw.
  exact (nth_error_In _ _ E).
Qed.

Lemma click_inv_effect (wd : World) :
  Forall click_inv (closures wd) -> Forall click_inv (closures (effect_run wd)).
Proof.
  intros Hw. unfold effect_run. cbn [closures]. apply Forall_app. split; [exact Hw|].
  apply Forall_forall. intros c Hc. apply in_map_iff in Hc.
  destruct Hc as [b [<- _]]. apply click_inv_init.
Qed.

Lemma click_inv_run (evs : list WEvent) (wd : World) :
  up_times_ok evs -> Forall click_inv (closures wd) ->
  Forall click_inv (closures (world_run evs wd)).
Proof.
  unfold world_run. intros Ht. revert wd.
  induction Ht as [|ev evs Hev Ht IH]; intros wd Hw; [exact Hw|].
  cbn [fold_left]. apply IH.
  destruct ev; cbn [world_step]; try (apply click_inv_on_closure; [|exact Hw]).
  - apply click_inv_pointerdown.
  - apply click_inv_handle_down.
  - apply click_inv_move.
  - apply click_inv_resize_move.
  - intros g. apply click_inv_up. exact Hev.
  - apply click_inv_resize_end.
  - apply click_inv_effect. exact Hw.
Qed.

Lemma click_inv_reachable (st : BlocksState) (evs : list WEvent) :
  up_times_ok evs ->
  Forall click_inv (closures (world_run evs (initial_world st))).
Proof.
  intros Ht. apply click_inv_run; [exact Ht|].
  apply click_inv_effect. constructor.
Qed.

(** The clicks of a double-click at [T] and [T + 150]: the first
    pointer-down goes to the closure of the first run, [selectBlock]
    changes [blocks] so the effect runs again, the pointer-up reaches
    every attached [handlePointerUp]; the second pointer-down goes to the
    closure of the new run, and so on. *)
Definition double_click_events (T : Z) : list WEvent :=
  [WBlockDown 0 false (mkPoint 5 5); WEffect; WPointerUp 0 T; WPointerUp 1 T;
   WBlockDown 1 false (mkPoint 5 5); WEffect;
   WPointerUp 0 (T + 150); WPointerUp 1 (T + 150); WPointerUp 2 (T + 150)].

(** C7 (code_bug): however the listener invocations of pointer-downs,
    moves, pointer-ups and effect runs are interleaved, with [Date.now()]
    at least 300 at every pointer-up, every closure ever allocated has
    [lastClickTime = 0] while its [pointerup] listener is attached, and
    none is editing: each qualifying pointer-up computes
    [Δt = now - 0 >= 300] and takes the single-click branch, so a real
    double-click ([0 < Δt < 300] between the two clicks) never enters edit
    mode. *)
Theorem C7_double_click_never_edits (st : BlocksState) (evs : list WEvent)
  (Ht : up_times_ok evs) :
  Forall (fun c => editing c = false /\ (upAttached c = true -> lastClickTime c = 0%Z))
    (closures (world_run evs (initial_world st))).
Proof. exact (click_inv_reachable st evs Ht). Qed.

Lemma C7_double_click_never_edits_witness :
  let b := mkBlock "t" TText (TextContent "Hello" 16 "#ffffff") (mkPoint 0 0)
             (mkSize 200 100) false false true in
  let st := mkBlocksState [b] [] in
  up_times_ok (double_click_events 1700000000000) /\
  Forall (fun c => editing c = false /\ (upAttached c = true -> lastClickTime c = 0%Z))
    (closures (world_run (double_click_events 1700000000000) (initial_world st))).
Proof.
  intros b st.
  assert (Ht : up_times_ok (double_click_events 1700000000000))
    by (repeat constructor; discriminate).
  split; [exact Ht|]. exact (C7_double_click_never_edits st _ Ht).
Defined.


